(** * Text extraction engine of auto_claim.py

    A shallow embedding of the parsers of [auto_claim.py]
    ([parse_calendar_activities], [parse_activity_details], [clean_text],
    [parse_claim_result], [parse_my_coupons], [get_today_activities]) and the
    properties of the specification that concern them.

    Python strings are sequences of Unicode code points; the program's
    regular expressions are kept as pattern terms and run by a backtracking
    matcher with the semantics of Python's [re] module. *)

From Stdlib Require Import List NArith ZArith Lia Bool String Ascii Arith Sorted.
Import ListNotations.

Set Implicit Arguments.

(** ** Python strings *)

Module Py.

Definition char := N.
Definition str := list char.

Local Open Scope N_scope.

(** Source literals are written as UTF-8 text and decoded to code points. *)
Fixpoint utf8 (need : nat) (acc : N) (s : string) : str :=
  match s with
  | EmptyString => []
  | String a s' =>
      let b := N_of_ascii a in
      match need with
      | O =>
          if b <? 0x80 then b :: utf8 0 0 s'
          else if b <? 0xE0 then utf8 1 (b - 0xC0) s'
          else if b <? 0xF0 then utf8 2 (b - 0xE0) s'
          else utf8 3 (b - 0xF0) s'
      | S O => (acc * 64 + (b - 0x80)) :: utf8 0 0 s'
      | S k => utf8 k (acc * 64 + (b - 0x80)) s'
      end
  end.

Definition U (s : string) : str := utf8 0 0 s.

Definition NL : char := 10.
Definition CR : char := 13.
Definition QUOTE : char := 34.
Definition BACKSLASH : char := 92.
Definition SPACE : char := 32.

(** [str.isspace] on one code point; also the class [\s] of [re]. *)
Definition isspace (c : char) : bool :=
  ((9 <=? c) && (c <=? 13)) || ((28 <=? c) && (c <=? 32))
  || (c =? 0x85) || (c =? 0xA0) || (c =? 0x1680)
  || ((0x2000 <=? c) && (c <=? 0x200A))
  || (c =? 0x2028) || (c =? 0x2029) || (c =? 0x202F) || (c =? 0x205F)
  || (c =? 0x3000).

(** The code points of general category Nd (Unicode 14.0) come in runs of
    ten, each starting at a digit zero; these are the zeros.  They are the
    class [\d] of [re] and the digits [int] accepts. *)
Definition digit_zeros : list char :=
  [0x30; 0x660; 0x6F0; 0x7C0; 0x966; 0x9E6; 0xA66; 0xAE6; 0xB66; 0xBE6;
   0xC66; 0xCE6; 0xD66; 0xDE6; 0xE50; 0xED0; 0xF20; 0x1040; 0x1090; 0x17E0;
   0x1810; 0x1946; 0x19D0; 0x1A80; 0x1A90; 0x1B50; 0x1BB0; 0x1C40; 0x1C50;
   0xA620; 0xA8D0; 0xA900; 0xA9D0; 0xA9F0; 0xAA50; 0xABF0; 0xFF10; 0x104A0;
   0x10D30; 0x11066; 0x110F0; 0x11136; 0x111D0; 0x112F0; 0x11450; 0x114D0;
   0x11650; 0x116C0; 0x11730; 0x118E0; 0x11950; 0x11C50; 0x11D50; 0x11DA0;
   0x16A60; 0x16AC0; 0x16B50; 0x1D7CE; 0x1D7D8; 0x1D7E2; 0x1D7EC; 0x1D7F6;
   0x1E140; 0x1E2F0; 0x1E950; 0x1FBF0].

Fixpoint digit_in (zeros : list char) (c : char) : option Z :=
  match zeros with
  | [] => None
  | z :: zs =>
      if (z <=? c) && (c <? z + 10) then Some (Z.of_N (c - z))
      else digit_in zs c
  end.

Definition digit_value (c : char) : option Z := digit_in digit_zeros c.

Definition isdigit (c : char) : bool :=
  match digit_value c with Some _ => true | None => false end.

(** [int(s)] for a string of decimal digits, which is all the program
    passes to it (a capture of [\d+]).  Python integers are unbounded; the
    interpreter's configurable limit on the length of the digit string is
    not modelled. *)
Definition int (s : str) : Z :=
  fold_left
    (fun acc c => (acc * 10 + match digit_value c with Some d => d | None => 0 end)%Z)
    s 0%Z.

Fixpoint str_eqb (a b : str) : bool :=
  match a, b with
  | [], [] => true
  | x :: a', y :: b' => (x =? y) && str_eqb a' b'
  | _, _ => false
  end.

(** [s.startswith(p)] *)
Fixpoint startswith (p s : str) : bool :=
  match p, s with
  | [], _ => true
  | x :: p', y :: s' => (x =? y) && startswith p' s'
  | _ :: _, [] => false
  end.

(** [sub in s] *)
Fixpoint contains (sub s : str) : bool :=
  startswith sub s
  || match s with [] => false | _ :: s' => contains sub s' end.

(** [s.lstrip()], [s.rstrip()], [s.strip()] *)
Fixpoint lstrip (s : str) : str :=
  match s with
  | c :: s' => if isspace c then lstrip s' else s
  | [] => []
  end.

Definition rstrip (s : str) : str := rev (lstrip (rev s)).

Definition strip (s : str) : str := rstrip (lstrip s).

(** [s.replace(old, new)]: occurrences of [old] are found left to right and
    do not overlap.  [skip] counts the characters of the current occurrence
    still to be passed over. *)
Fixpoint replace_from (old new s : str) (skip : nat) : str :=
  match s with
  | [] => []
  | c :: s' =>
      match skip with
      | S k => replace_from old new s' k
      | O =>
          if startswith old s
          then new ++ replace_from old new s' (List.length old - 1)
          else c :: replace_from old new s' 0
      end
  end.

Definition replace (old new s : str) : str :=
  match old with
  | [] => new ++ flat_map (fun c => c :: new) s
  | _ :: _ => replace_from old new s 0
  end.

(** [s[a:b]] for [0 <= a <= b] *)
Definition slice (s : str) (a b : nat) : str := firstn (b - a) (skipn a s).

(** [l[:n]] for a Python integer [n] *)
Definition upto {A} (l : list A) (n : Z) : list A :=
  if (n <? 0)%Z then firstn (List.length l - Z.to_nat (- n)) l
  else firstn (Z.to_nat n) l.

(** Decimal digits of a non-negative integer, as [str(n)] and the format
    specifications [d] and [02d] print them. *)
Fixpoint uint_chars (u : Decimal.uint) : str :=
  match u with
  | Decimal.Nil => []
  | Decimal.D0 u' => 48 :: uint_chars u'
  | Decimal.D1 u' => 49 :: uint_chars u'
  | Decimal.D2 u' => 50 :: uint_chars u'
  | Decimal.D3 u' => 51 :: uint_chars u'
  | Decimal.D4 u' => 52 :: uint_chars u'
  | Decimal.D5 u' => 53 :: uint_chars u'
  | Decimal.D6 u' => 54 :: uint_chars u'
  | Decimal.D7 u' => 55 :: uint_chars u'
  | Decimal.D8 u' => 56 :: uint_chars u'
  | Decimal.D9 u' => 57 :: uint_chars u'
  end.

(** the format field [{n}] for [n >= 0] *)
Definition fmt_d (n : Z) : str := uint_chars (N.to_uint (Z.to_N n)).

(** the format field [{n:02d}] for [n >= 0] *)
Definition fmt_02d (n : Z) : str :=
  let s := fmt_d n in
  match s with
  | [_] => 48 :: s
  | _ => s
  end.

End Py.

(** ** Regular expressions

    The patterns of the program use literals, character classes, greedy and
    lazy repetition of one-character items, optional items, alternation,
    capturing groups, one lookahead and the anchors [^] and [$] (no flags).
    [rmatch] is the backtracking matcher of [re] in continuation-passing
    style: alternatives are tried in order and the first one whose
    continuation succeeds wins. *)

Module Re.
Import Py.

Inductive regex : Type :=
| Emp                                      (* the empty pattern *)
| Chr (p : char -> bool)                   (* one character of a class *)
| Cat (r1 r2 : regex)                      (* r1 r2 *)
| Alt (r1 r2 : regex)                      (* r1|r2 *)
| Star (greedy : bool) (p : char -> bool)  (* p* and p*? *)
| Opt (r : regex)                          (* r? *)
| Grp (n : nat) (r : regex)                (* (r), group number n *)
| Ahead (r : regex)                        (* (?=r) *)
| Bol                                      (* ^ *)
| Eol.                                     (* $ *)

(** Character classes *)
Definition lit (c0 : char) : char -> bool := fun c => N.eqb c c0.
Definition dot : char -> bool := fun c => negb (N.eqb c NL).
Definition space : char -> bool := isspace.
Definition nonspace : char -> bool := fun c => negb (isspace c).
Definition digit : char -> bool := isdigit.
Definition range (lo hi : char) : char -> bool :=
  fun c => N.leb lo c && N.leb c hi.
Definition oneof (l : list (char -> bool)) : char -> bool :=
  fun c => existsb (fun p => p c) l.
Definition noneof (l : list (char -> bool)) : char -> bool :=
  fun c => negb (existsb (fun p => p c) l).

(** Derived forms: a literal string, [p+] and [p+?]. *)
Fixpoint Lit (s : str) : regex :=
  match s with
  | [] => Emp
  | c :: s' => Cat (Chr (lit c)) (Lit s')
  end.

Definition Plus (greedy : bool) (p : char -> bool) : regex :=
  Cat (Chr p) (Star greedy p).

(** The matcher's state: the position in the text, the text from there on,
    and the spans of the groups closed so far (latest first). *)
Record mstate : Type :=
  MState { pos : nat; rest : str; caps : list (nat * (nat * nat)) }.

Definition cont := mstate -> option mstate.

Fixpoint star_greedy (p : char -> bool) (k : cont)
    (cs : list (nat * (nat * nat))) (i : nat) (s : str) : option mstate :=
  match s with
  | c :: s' =>
      if p c then
        match star_greedy p k cs (S i) s' with
        | Some st => Some st
        | None => k (MState i s cs)
        end
      else k (MState i s cs)
  | [] => k (MState i s cs)
  end.

Fixpoint star_lazy (p : char -> bool) (k : cont)
    (cs : list (nat * (nat * nat))) (i : nat) (s : str) : option mstate :=
  match k (MState i s cs) with
  | Some st => Some st
  | None =>
      match s with
      | c :: s' => if p c then star_lazy p k cs (S i) s' else None
      | [] => None
      end
  end.

Fixpoint rmatch (r : regex) (k : cont) (st : mstate) : option mstate :=
  match r with
  | Emp => k st
  | Chr p =>
      match rest st with
      | c :: s' => if p c then k (MState (S (pos st)) s' (caps st)) else None
      | [] => None
      end
  | Cat r1 r2 => rmatch r1 (rmatch r2 k) st
  | Alt r1 r2 =>
      match rmatch r1 k st with
      | Some st' => Some st'
      | None => rmatch r2 k st
      end
  | Star true p => star_greedy p k (caps st) (pos st) (rest st)
  | Star false p => star_lazy p k (caps st) (pos st) (rest st)
  | Opt r1 =>
      match rmatch r1 k st with
      | Some st' => Some st'
      | None => k st
      end
  | Grp n r1 =>
      rmatch r1
        (fun st' =>
           k (MState (pos st') (rest st') ((n, (pos st, pos st')) :: caps st')))
        st
  | Ahead r1 =>
      match rmatch r1 Some st with
      | Some st' => k (MState (pos st) (rest st) (caps st'))
      | None => None
      end
  | Bol => if Nat.eqb (pos st) 0 then k st else None
  | Eol =>
      match rest st with
      | [] => k st
      | [c] => if N.eqb c NL then k st else None
      | _ => None
      end
  end.

(** A match object: [m.start()], [m.end()] and the group spans. *)
Record mobj : Type :=
  MObj { m_start : nat; m_end : nat; m_caps : list (nat * (nat * nat)) }.

Fixpoint span_of (n : nat) (cs : list (nat * (nat * nat))) : option (nat * nat) :=
  match cs with
  | [] => None
  | (n', ab) :: cs' => if Nat.eqb n n' then Some ab else span_of n cs'
  end.

(** [m.group(n)]: [None] when the group took no part in the match *)
Definition group (text : str) (m : mobj) (n : nat) : option str :=
  match span_of n (m_caps m) with
  | Some (a, b) => Some (slice text a b)
  | None => None
  end.

(** The continuation that ends an attempt started at [i]: with
    [must_advance] an empty match is refused (the scanner sets it after an
    empty match, to make progress). *)
Definition final (must_advance : bool) (i : nat) : cont :=
  fun st => if must_advance && Nat.eqb (pos st) i then None else Some st.

(** One attempt at position [i], where [s] is the text from [i] on. *)
Definition match_at (r : regex) (must_advance : bool) (i : nat) (s : str)
  : option mobj :=
  match rmatch r (final must_advance i) (MState i s []) with
  | Some st => Some (MObj i (pos st) (caps st))
  | None => None
  end.

(** [re.search]: the first position, from the left, where an attempt
    succeeds. *)
Fixpoint search_from (r : regex) (i : nat) (s : str) : option mobj :=
  match match_at r false i s with
  | Some m => Some m
  | None =>
      match s with
      | [] => None
      | _ :: s' => search_from r (S i) s'
      end
  end.

Definition search (r : regex) (text : str) : option mobj :=
  search_from r 0 text.

(** [re.match] *)
Definition match_ (r : regex) (text : str) : option mobj :=
  match_at r false 0 text.

(** The scanner behind [finditer], [findall], [split] and [sub]: successive
    non-overlapping matches, left to right.  After a match that ends at [e]
    the next search starts at [e]; after an empty match it starts at the
    same position and must advance.  [skip] counts the characters of the
    last match still to be passed over. *)
Fixpoint scan (r : regex) (i : nat) (s : str) (skip : nat) : list mobj :=
  match skip with
  | S k =>
      match s with
      | [] => []
      | _ :: s' => scan r (S i) s' k
      end
  | O =>
      match match_at r false i s with
      | None =>
          match s with
          | [] => []
          | _ :: s' => scan r (S i) s' 0
          end
      | Some m =>
          if Nat.eqb (m_end m) i then
            m ::
            match match_at r true i s with
            | Some m' =>
                m' ::
                match s with
                | [] => []
                | _ :: s' => scan r (S i) s' (m_end m' - i - 1)
                end
            | None =>
                match s with
                | [] => []
                | _ :: s' => scan r (S i) s' 0
                end
            end
          else
            m ::
            match s with
            | [] => []
            | _ :: s' => scan r (S i) s' (m_end m - i - 1)
            end
      end
  end.

(** [list(re.finditer(r, text))] *)
Definition finditer (r : regex) (text : str) : list mobj := scan r 0 text 0.

(** [re.findall] for a pattern with one group: the text of group 1 of every
    match (empty when the group took no part). *)
Definition findall1 (r : regex) (text : str) : list str :=
  map (fun m => match group text m 1 with Some g => g | None => [] end)
      (finditer r text).

(** [re.split] for a pattern without groups *)
Fixpoint split_at (text : str) (last : nat) (ms : list mobj) : list str :=
  match ms with
  | [] => [slice text last (List.length text)]
  | m :: ms' => slice text last (m_start m) :: split_at text (m_end m) ms'
  end.

Definition split (r : regex) (text : str) : list str :=
  split_at text 0 (finditer r text).

(** [re.sub] with a replacement that has no group references *)
Fixpoint sub_at (repl text : str) (last : nat) (ms : list mobj) : str :=
  match ms with
  | [] => slice text last (List.length text)
  | m :: ms' =>
      slice text last (m_start m) ++ repl ++ sub_at repl text (m_end m) ms'
  end.

Definition sub (r : regex) (repl text : str) : str :=
  sub_at repl text 0 (finditer r text).

End Re.

(** ** Exceptions and dates *)

Module Exn.

(** The exceptions the modelled code can raise. *)
Inductive exn : Type := ValueError | OverflowError | TypeError.

Inductive result (A : Type) : Type :=
| Ok (a : A)
| Raise (e : exn).

Arguments Ok {A} a.
Arguments Raise {A} e.

Definition bind {A B} (x : result A) (f : A -> result B) : result B :=
  match x with
  | Ok a => f a
  | Raise e => Raise e
  end.

End Exn.
Import Exn.

Notation "x <- e ;; k" := (bind e (fun x => k))
  (at level 61, e at next level, right associativity).

Module Datetime.
Import Py Re.
Local Open Scope Z_scope.

Record datetime : Type :=
  { year : Z; month : Z; day : Z;
    hour : Z; minute : Z; second : Z; microsecond : Z }.

Definition is_leap (y : Z) : bool :=
  (y mod 4 =? 0) && (negb (y mod 100 =? 0) || (y mod 400 =? 0)).

Definition days_in_month (y m : Z) : Z :=
  if m =? 2 then (if is_leap y then 29 else 28)
  else if (m =? 4) || (m =? 6) || (m =? 9) || (m =? 11) then 30
  else 31.

(** The constructor's arguments are C ints. *)
Definition c_int (n : Z) : bool := (- 2 ^ 31 <=? n) && (n <=? 2 ^ 31 - 1).

(** [datetime(y, m, d)] *)
Definition mk (y m d : Z) : result datetime :=
  if negb (c_int y && c_int m && c_int d) then Raise OverflowError
  else if (y <? 1) || (9999 <? y) then Raise ValueError
  else if (m <? 1) || (12 <? m) then Raise ValueError
  else if (d <? 1) || (days_in_month y m <? d) then Raise ValueError
  else Ok {| year := y; month := m; day := d;
             hour := 0; minute := 0; second := 0; microsecond := 0 |}.

(** [a < b] *)
Definition lt (a b : datetime) : bool :=
  let fix lex (l : list (Z * Z)) : bool :=
    match l with
    | [] => false
    | (x, y) :: l' => (x <? y) || ((x =? y) && lex l')
    end in
  lex [(year a, year b); (month a, month b); (day a, day b);
       (hour a, hour b); (minute a, minute b); (second a, second b);
       (microsecond a, microsecond b)].

(** [t.replace(hour=0, minute=0, second=0, microsecond=0)] *)
Definition midnight (t : datetime) : datetime :=
  {| year := year t; month := month t; day := day t;
     hour := 0; minute := 0; second := 0; microsecond := 0 |}.

Definition ch (a : ascii) : char := N_of_ascii a.

(** The pattern [strptime] builds for the format [%Y-%m-%d]:
    [(\d\d\d\d)-(1[0-2]|0[1-9]|[1-9])-(3[0-1]|[1-2]\d|0[1-9]|[1-9]| [1-9])] *)
Definition ymd_pattern : regex :=
  Cat (Grp 1 (Cat (Chr digit) (Cat (Chr digit) (Cat (Chr digit) (Chr digit)))))
 (Cat (Chr (lit (ch "-")))
 (Cat (Grp 2 (Alt (Cat (Chr (lit (ch "1"))) (Chr (range (ch "0") (ch "2"))))
             (Alt (Cat (Chr (lit (ch "0"))) (Chr (range (ch "1") (ch "9"))))
                  (Chr (range (ch "1") (ch "9"))))))
 (Cat (Chr (lit (ch "-")))
      (Grp 3 (Alt (Cat (Chr (lit (ch "3"))) (Chr (range (ch "0") (ch "1"))))
             (Alt (Cat (Chr (range (ch "1") (ch "2"))) (Chr digit))
             (Alt (Cat (Chr (lit (ch "0"))) (Chr (range (ch "1") (ch "9"))))
             (Alt (Chr (range (ch "1") (ch "9")))
                  (Cat (Chr (lit SPACE)) (Chr (range (ch "1") (ch "9")))))))))))).

(** [datetime.strptime(s, fmt)] for [fmt] the format [%Y-%m-%d]: the pattern
    must match at the start and use up the string, and the fields must make
    a date.  ([int] ignores the blank a day field may start with.) *)
Definition strptime_ymd (s : str) : result datetime :=
  match match_ ymd_pattern s with
  | None => Raise ValueError
  | Some m =>
      if negb (Nat.eqb (m_end m) (List.length s)) then Raise ValueError
      else
        match group s m 1, group s m 2, group s m 3 with
        | Some y, Some mo, Some d => mk (int y) (int mo) (int (strip d))
        | _, _, _ => Raise ValueError
        end
  end.

(** [t.strftime(fmt)] for [fmt] the format [%Y-%m-%d] *)
Definition strftime_ymd (t : datetime) : str :=
  let y := fmt_d (year t) in
  repeat (ch "0") (4 - List.length y) ++ y
  ++ [ch "-"] ++ fmt_02d (month t) ++ [ch "-"] ++ fmt_02d (day t).

End Datetime.

(** ** The program *)

Import Py Re Datetime.

Infix "$$" := Cat (at level 60, right associativity).

(** Records of the data model: the dictionaries the parsers build have
    fixed keys. *)
Record ActivityRecord : Type :=
  { title : str; content : str; img : str }.

Record DayActivities : Type :=
  { date : str; count : Z; activities : list ActivityRecord }.

Record ClaimResult : Type :=
  { success : Z; failed : Z; coupons : list str; message : str }.

Record CouponRecord : Type :=
  { c_title : str; c_price : str; c_validity : str; c_img : str }.

(** Truth value of a string: [if s] *)
Definition truthy (s : str) : bool :=
  match s with [] => false | _ :: _ => true end.

(** The two-character sequence backslash, n *)
Definition ESC_N : str := [BACKSLASH; ch "n"].

(** The class of the full-width and the ASCII colon *)
Definition colon : char -> bool := oneof [lit 0xFF1A%N; lit (ch ":")].

(** *** clean_text *)

(** [\n\s*\n] *)
Definition blank_lines : regex := Chr (lit NL) $$ Star true space $$ Chr (lit NL).

Definition clean_text (text : str) : str :=
  if negb (truthy text) then []
  else
    let text := replace ESC_N [NL] text in
    let text := replace [BACKSLASH; BACKSLASH] [] text in
    let text := replace [BACKSLASH; SPACE] [SPACE] text in
    let text := sub blank_lines [NL] text in
    let text := strip text in
    text.

(** *** parse_activity_details *)

Definition title_label : str := U "**活动标题**".

(** [\n-\s*\*\*活动标题\*\*] *)
Definition block_marker : regex :=
  Chr (lit NL) $$ Chr (lit (ch "-")) $$ Star true space $$ Lit title_label.

(** [^[：:]\s*(.+?)(?:\n|$)] *)
Definition title_after_colon : regex :=
  Bol $$ Chr colon $$ Star true space $$ Grp 1 (Plus false dot)
  $$ Alt (Chr (lit NL)) Eol.

(** [^\s*(.+?)(?:\n|$)] *)
Definition title_first_line : regex :=
  Bol $$ Star true space $$ Grp 1 (Plus false dot) $$ Alt (Chr (lit NL)) Eol.

(** [\*\*活动内容介绍\*\*[：:]\s*([\s\S]*?)(?=\*\*活动图片介绍\*\*|$)] *)
Definition intro_pattern : regex :=
  Lit (U "**活动内容介绍**") $$ Chr colon $$ Star true space
  $$ Grp 1 (Star false (oneof [space; nonspace]))
  $$ Ahead (Alt (Lit (U "**活动图片介绍**")) Eol).

(** [<img\s+src=QUOTE([^QUOTE]+)QUOTE] *)
Definition img_pattern : regex :=
  Lit (U "<img") $$ Plus true space $$ Lit (U "src=") $$ Chr (lit QUOTE)
  $$ Grp 1 (Plus true (noneof [lit QUOTE])) $$ Chr (lit QUOTE).

(** [\*\*活动标题\*\*[：:]\s*(.+?)(?:\n|\\n|$)] *)
Definition flat_title_pattern : regex :=
  Lit title_label $$ Chr colon $$ Star true space $$ Grp 1 (Plus false dot)
  $$ Alt (Chr (lit NL)) (Alt (Lit ESC_N) Eol).

(** [m.group(1)] of an optional match, or the default *)
Definition group1_or (text : str) (m : option mobj) (f : str -> str)
    (default : str) : str :=
  match m with
  | Some m' => match group text m' 1 with Some g => f g | None => default end
  | None => default
  end.

(** The body of the loop over the blocks; [None] is [continue] or a block
    without a title, [Some] the record appended. *)
Definition parse_block (i : nat) (block : str) : option ActivityRecord :=
  if negb (truthy (strip block)) then None
  else
    let block' :=
      if Nat.eqb i 0 && negb (contains title_label block) then
        if startswith title_label (strip block)
        then Some (skipn (List.length title_label) (strip block))
        else None
      else Some block in
    match block' with
    | None => None
    | Some block =>
        let title_match :=
          match search title_after_colon block with
          | Some m => Some m
          | None => search title_first_line block
          end in
        let title := group1_or block title_match strip [] in
        let title := clean_text title in
        let content_match := search intro_pattern block in
        let intro := group1_or block content_match strip [] in
        let intro := clean_text intro in
        let intro :=
          if Nat.ltb 300 (List.length intro)
          then firstn 300 intro ++ U "..."
          else intro in
        let img_match := search img_pattern block in
        let img := group1_or block img_match (fun g => g) [] in
        if truthy title
        then Some {| title := title; content := intro; img := img |}
        else None
    end.

Fixpoint parse_blocks (i : nat) (blocks : list str)
    (activities : list ActivityRecord) : list ActivityRecord :=
  match blocks with
  | [] => activities
  | block :: blocks' =>
      match parse_block i block with
      | Some a => parse_blocks (S i) blocks' (activities ++ [a])
      | None => parse_blocks (S i) blocks' activities
      end
  end.

(** The second strategy: titles and images paired by position. *)
Fixpoint flat_titles (text : str) (img_matches : list mobj) (idx : nat)
    (title_matches : list mobj) (activities : list ActivityRecord)
  : list ActivityRecord :=
  match title_matches with
  | [] => activities
  | m :: ms =>
      let title := clean_text (group1_or text (Some m) strip []) in
      let img :=
        match nth_error img_matches idx with
        | Some im => group1_or text (Some im) (fun g => g) []
        | None => []
        end in
      if truthy title
      then flat_titles text img_matches (S idx) ms
             (activities ++ [{| title := title; content := []; img := img |}])
      else flat_titles text img_matches (S idx) ms activities
  end.

Definition parse_activity_details (content : str) : list ActivityRecord :=
  let content :=
    replace (BACKSLASH :: ESC_N) [NL] (replace ESC_N [NL] content) in
  let activity_blocks := split block_marker content in
  let activities := parse_blocks 0 activity_blocks [] in
  match activities with
  | [] =>
      let title_matches := finditer flat_title_pattern content in
      let img_matches := finditer img_pattern content in
      flat_titles content img_matches 0 title_matches []
  | _ :: _ => activities
  end.

(** *** parse_calendar_activities *)

(** [####?\s*(?:(\d+)年)?(\d+)月(\d+)日] *)
Definition date_pattern : regex :=
  Lit (U "###") $$ Opt (Chr (lit (ch "#"))) $$ Star true space
  $$ Opt (Grp 1 (Plus true digit) $$ Lit (U "年"))
  $$ Grp 2 (Plus true digit) $$ Lit (U "月")
  $$ Grp 3 (Plus true digit) $$ Lit (U "日").

(** [int(m.group(n))]; [int(None)] is a type error *)
Definition int_group (text : str) (m : mobj) (n : nat) : result Z :=
  match group text m n with
  | Some g => Ok (int g)
  | None => Raise TypeError
  end.

(** The year, month and day a header resolves to. *)
Definition resolve (text : str) (current_year : Z) (m : mobj)
  : result (Z * Z * Z) :=
  year <- match group text m 1 with
          | Some g => if truthy g then Ok (int g) else Ok current_year
          | None => Ok current_year
          end ;;
  month <- int_group text m 2 ;;
  day <- int_group text m 3 ;;
  Ok (year, month, day).

Definition fmt_date (year month day : Z) : str :=
  fmt_d year ++ [ch "-"] ++ fmt_02d month ++ [ch "-"] ++ fmt_02d day.

(** The loop over [enumerate(matches)]: [todo] are the matches from index
    [i] on. *)
Fixpoint calendar_loop (text : str) (current_date : datetime)
    (matches : list mobj) (i : nat) (todo : list mobj)
    (activities : list DayActivities) : result (list DayActivities) :=
  match todo with
  | [] => Ok activities
  | m :: todo' =>
      ymd <- resolve text (Datetime.year current_date) m ;;
      let '(year, month, day) := ymd in
      if negb (Z.eqb month (Datetime.month current_date))
         || negb (Z.eqb year (Datetime.year current_date))
      then calendar_loop text current_date matches (S i) todo' activities
      else
        activity_date <- Datetime.mk year month day ;;
        if Datetime.lt activity_date (midnight current_date)
        then calendar_loop text current_date matches (S i) todo' activities
        else
          let start_pos := m_end m in
          let end_pos :=
            match nth_error matches (i + 1) with
            | Some m' => m_start m'
            | None => List.length text
            end in
          let content := strip (slice text start_pos end_pos) in
          let activity_list := parse_activity_details content in
          match activity_list with
          | [] => calendar_loop text current_date matches (S i) todo' activities
          | _ :: _ =>
              calendar_loop text current_date matches (S i) todo'
                (activities ++
                 [{| date := fmt_date year month day;
                     count := Z.of_nat (List.length activity_list);
                     activities := activity_list |}])
          end
  end.

(** The reference date: the server's date when it is given, else the local
    time.  [now] is what [datetime.now()] returns; [server_date] is [None]
    or a string. *)
Definition reference_date (now : datetime) (server_date : option str)
  : result datetime :=
  match server_date with
  | Some s => if truthy s then strptime_ymd s else Ok now
  | None => Ok now
  end.

Definition parse_calendar_activities (now : datetime) (text : str)
    (server_date : option str) : result (list DayActivities) :=
  if negb (truthy text) then Ok []
  else
    current_date <- reference_date now server_date ;;
    let matches := finditer date_pattern text in
    calendar_loop text current_date matches 0 matches [].

(** *** parse_claim_result *)

(** [成功[：:]\s*(\d+)] and [失败[：:]\s*(\d+)] *)
Definition count_pattern (label : str) : regex :=
  Lit label $$ Chr colon $$ Star true space $$ Grp 1 (Plus true digit).

Definition success_label : str := U "成功".
Definition failed_label : str := U "失败".

(** [\*\*(.+?)\*\*] *)
Definition coupon_pattern : regex :=
  Lit (U "**") $$ Grp 1 (Plus false dot) $$ Lit (U "**").

Definition nothing_message : str := U "暂无可领取的优惠券".

(** [int(m.group(1)) if m else 0] *)
Definition int_or_zero (text : str) (m : option mobj) : result Z :=
  match m with
  | Some m' => int_group text m' 1
  | None => Ok 0%Z
  end.

Definition parse_claim_result (text : str) : result ClaimResult :=
  if negb (truthy text)
  then Ok {| success := 0; failed := 0; coupons := []; message := [] |}
  else if contains (U "领券失败") text || contains (U "暂无可领取") text
  then Ok {| success := 0; failed := 0; coupons := [];
             message := nothing_message |}
  else
    let success_match := search (count_pattern success_label) text in
    let fail_match := search (count_pattern failed_label) text in
    success <- int_or_zero text success_match ;;
    failed <- int_or_zero text fail_match ;;
    let coupons := findall1 coupon_pattern text in
    Ok {| success := success;
          failed := failed;
          coupons := match coupons with
                     | [] => []
                     | _ :: _ => upto coupons success
                     end;
          message := [] |}.

(** *** parse_my_coupons *)

(** [(?=##\s+[^\n]+)] *)
Definition section_start : regex :=
  Ahead (Lit (U "##") $$ Plus true space $$ Plus true (noneof [lit NL])).

(** [##\s*(.+?)[\n\r]] *)
Definition heading_pattern : regex :=
  Lit (U "##") $$ Star true space $$ Grp 1 (Plus false dot)
  $$ Chr (oneof [lit NL; lit CR]).

(** [\*\*优惠\*\*[：:]\s*¥?(\d+(?:\.\d+)?)] *)
Definition price_pattern : regex :=
  Lit (U "**优惠**") $$ Chr colon $$ Star true space
  $$ Opt (Chr (lit 0xA5%N))
  $$ Grp 1 (Plus true digit $$ Opt (Chr (lit (ch ".")) $$ Plus true digit)).

(** [\*\*有效期\*\*[：:]\s*([^\n]+)] *)
Definition validity_pattern : regex :=
  Lit (U "**有效期**") $$ Chr colon $$ Star true space
  $$ Grp 1 (Plus true (noneof [lit NL])).

Definition unknown_validity : str := U "未知".

(** The body of the loop over the sections; [None] is [continue]. *)
Definition parse_section (section : str) : option CouponRecord :=
  if negb (truthy (strip section)) then None
  else
    match search heading_pattern section with
    | None => None
    | Some title_match =>
        let title := group1_or section (Some title_match) strip [] in
        let price :=
          group1_or section (search price_pattern section) strip (U "0") in
        let validity :=
          group1_or section (search validity_pattern section) strip
            unknown_validity in
        let img :=
          group1_or section (search img_pattern section) (fun g => g) [] in
        Some {| c_title := title; c_price := price;
                c_validity := validity; c_img := img |}
    end.

Fixpoint parse_sections (sections : list str) (coupons : list CouponRecord)
  : list CouponRecord :=
  match sections with
  | [] => coupons
  | section :: sections' =>
      match parse_section section with
      | Some c => parse_sections sections' (coupons ++ [c])
      | None => parse_sections sections' coupons
      end
  end.

Definition parse_my_coupons (text : str) : list CouponRecord :=
  if negb (truthy text) then []
  else
    let sections := split section_start text in
    parse_sections sections [].

(** *** get_today_activities *)

(** The calendar data is read back from a JSON file: a list of objects. *)
#[local] Unset Elimination Schemes.
Inductive json : Type :=
| JNull
| JBool (b : bool)
| JNum (n : Z)
| JStr (s : str)
| JArr (l : list json)
| JObj (l : list (str * json)).
#[local] Set Elimination Schemes.

Definition dict := list (str * json).

(** [d.get(key)]; a missing key gives [None], here [JNull] *)
Fixpoint dict_get (d : dict) (key : str) : json :=
  match d with
  | [] => JNull
  | (k, v) :: d' => if str_eqb k key then v else dict_get d' key
  end.

(** [v == s] for a string [s] *)
Definition eq_str (v : json) (s : str) : bool :=
  match v with
  | JStr s' => str_eqb s' s
  | _ => false
  end.

Fixpoint today_loop (today : str) (calendar_data : list dict) : option dict :=
  match calendar_data with
  | [] => None
  | day_data :: calendar_data' =>
      if eq_str (dict_get day_data (U "date")) today
      then Some day_data
      else today_loop today calendar_data'
  end.

Definition get_today_activities (now : datetime) (calendar_data : list dict)
  : option dict :=
  let today := strftime_ymd now in
  today_loop today calendar_data.

(** ** Notions used by the statements *)

(** The text of day [i]: from the end of its header to the start of the
    next header, or to the end of the text, stripped. *)
Definition day_content (text : str) (matches : list mobj) (i : nat) (m : mobj)
  : str :=
  strip (slice text (m_end m)
           (match nth_error matches (i + 1) with
            | Some m' => m_start m'
            | None => List.length text
            end)).

(** [d] is the record of header [i] of the text: the header resolves to a
    date of the reference month and year, not before the reference day, and
    the day's content yields the activities of [d]. *)
Definition record_of_header (text : str) (current_date : datetime)
    (matches : list mobj) (d : DayActivities) : Prop :=
  exists i m y mo dd activity_date,
    nth_error matches i = Some m /\
    resolve text (Datetime.year current_date) m = Ok (y, mo, dd) /\
    mo = Datetime.month current_date /\
    y = Datetime.year current_date /\
    Datetime.mk y mo dd = Ok activity_date /\
    Datetime.lt activity_date (midnight current_date) = false /\
    date d = fmt_date y mo dd /\
    activities d = parse_activity_details (day_content text matches i m) /\
    activities d <> [] /\
    count d = Z.of_nat (List.length (activities d)).

(** Example inputs *)

Definition lines (l : list str) : str := flat_map (fun s => s ++ [NL]) l.

Definition text_day_32 : str := U "#### 1月32日".

Definition block_with_label : str :=
  lines [U "**活动标题**：麦辣鸡腿堡"; U "**活动内容介绍**：买一送一"].

Definition blank_heading : str := lines [U "##  "].

Definition two_days : str :=
  lines [U "#### 2026年1月16日"; U "说明";
         U "- **活动标题**：早餐"; U "  **活动内容介绍**：买一送一";
         U "#### 2026年1月18日"; U "说明";
         U "- **活动标题**：午餐"; U "  **活动内容介绍**：第二份半价"].


(** The result for a text that says nothing can be claimed. *)
Definition nothing_result : ClaimResult :=
  {| success := 0; failed := 0; coupons := []; message := nothing_message |}.

(** ** Notions used by the proofs about the matcher *)

(** Patterns without [^] match the same way wherever the text starts. *)
Fixpoint bol_free (r : regex) : bool :=
  match r with
  | Bol => false
  | Cat r1 r2 | Alt r1 r2 => bol_free r1 && bol_free r2
  | Opt r1 | Grp _ r1 | Ahead r1 => bol_free r1
  | Emp | Chr _ | Star _ _ | Eol => true
  end.

Definition shift_caps (d : nat) (cs : list (nat * (nat * nat)))
  : list (nat * (nat * nat)) :=
  map (fun c => (fst c, (fst (snd c) + d, snd (snd c) + d))) cs.

Definition shift_st (d : nat) (st : mstate) : mstate :=
  MState (pos st + d) (rest st) (shift_caps d (caps st)).

Definition shift_mobj (d : nat) (m : mobj) : mobj :=
  MObj (m_start m + d) (m_end m + d) (shift_caps d (m_caps m)).

(** The length of the longest prefix in a class, and the text after it. *)
Fixpoint span (p : char -> bool) (s : str) : nat :=
  match s with
  | c :: s' => if p c then S (span p s') else 0
  | [] => 0
  end.

Fixpoint dropwhile (p : char -> bool) (s : str) : str :=
  match s with
  | c :: s' => if p c then dropwhile p s' else s
  | [] => []
  end.

Fixpoint takewhile (p : char -> bool) (s : str) : str :=
  match s with
  | c :: s' => if p c then c :: takewhile p s' else []
  | [] => []
  end.


(** After a line break, the number of characters up to and including the
    last line break of the blanks that follow, when there is one: what
    [\s*\n] takes after the first [\n] of the blank-lines pattern. *)
Fixpoint blank_len (r : str) : option nat :=
  match r with
  | c :: r' =>
      if isspace c then
        match blank_len r' with
        | Some n => Some (S n)
        | None => if N.eqb c NL then Some 1 else None
        end
      else None
  | [] => None
  end.

(** No line break of the text is followed by blanks and a line break. *)
Fixpoint settled (s : str) : bool :=
  match s with
  | [] => true
  | c :: r =>
      (if N.eqb c NL
       then match blank_len r with None => true | Some _ => false end
       else true)
      && settled r
  end.

(** The first character is not a blank. *)
Definition head_ok (s : str) : Prop :=
  match s with
  | c :: _ => isspace c = false
  | [] => True
  end.

(** The three steps of [clean_text] that rewrite escapes, and the step that
    joins blank lines. *)
Definition unescape_n (s : str) : str := replace ESC_N [NL] s.
Definition drop_double_backslash (s : str) : str :=
  replace [BACKSLASH; BACKSLASH] [] s.
Definition unescape_space (s : str) : str :=
  replace [BACKSLASH; SPACE] [SPACE] s.
Definition join_blank_lines (s : str) : str := sub blank_lines [NL] s.

Arguments unescape_n s : simpl never.
Arguments drop_double_backslash s : simpl never.
Arguments unescape_space s : simpl never.
Arguments join_blank_lines s : simpl never.

Definition n_char : char := ch "n".

(** ** The claim result, in the words of the specification *)









(** The records of a list of sections, in order: a skipped section gives
    none. *)
Definition section_records (sections : list str) : list CouponRecord :=
  flat_map
    (fun section =>
       match parse_section section with Some c => [c] | None => [] end)
    sections.

Definition two_coupons : str :=
  lines [U "## 麦辣鸡腿堡"; U "**有效期**: 2026-01-31";
         U "## 薯条"; U "**优惠**: ¥5"].

Definition coupon_without_price : CouponRecord :=
  {| c_title := U "麦辣鸡腿堡"; c_price := U "0";
     c_validity := U "2026-01-31"; c_img := [] |}.

Definition coupon_without_validity : CouponRecord :=
  {| c_title := U "薯条"; c_price := U "5";
     c_validity := unknown_validity; c_img := [] |}.

(** ** More of the program *)

(** *** html_escape *)

Definition html_escape (text : str) : str :=
  if negb (truthy text) then []
  else
    let text := replace [ch "&"] (U "&amp;") text in
    let text := replace [ch "<"] (U "&lt;") text in
    let text := replace [ch ">"] (U "&gt;") text in
    let text := replace [QUOTE] (U "&quot;") text in
    text.

(** *** clean_display_text *)

(** [\s+] *)
Definition blanks : regex := Plus true space.

Definition image_label_wide : str := U "**活动图片介绍**：".
Definition image_label_ascii : str := U "**活动图片介绍**:".

Definition clean_display_text (text : str) : str :=
  if negb (truthy text) then []
  else
    let text := replace ESC_N [SPACE] text in
    let text := replace (BACKSLASH :: ESC_N) [SPACE] text in
    let text := replace [BACKSLASH; BACKSLASH] [] text in
    let text := replace [BACKSLASH; SPACE] [SPACE] text in
    let text := replace image_label_wide [] text in
    let text := replace image_label_ascii [] text in
    let text := sub blanks [SPACE] text in
    let text := strip text in
    text.

(** *** parse_validity_short *)

(** [p{n}]: exactly [n] characters of a class *)
Fixpoint Times (n : nat) (p : char -> bool) : regex :=
  match n with
  | O => Emp
  | S k => Cat (Chr p) (Times k p)
  end.

(** [\d{4}-\d{2}-\d{2}] *)
Definition date10 : regex :=
  Times 4 digit $$ Chr (lit (ch "-")) $$ Times 2 digit
  $$ Chr (lit (ch "-")) $$ Times 2 digit.

(** [(\d{4}-\d{2}-\d{2})\s*[\d:]*\s*-\s*(\d{4}-\d{2}-\d{2})] *)
Definition date_range_pattern : regex :=
  Grp 1 date10 $$ Star true space $$ Star true (oneof [digit; lit (ch ":")])
  $$ Star true space $$ Chr (lit (ch "-")) $$ Star true space
  $$ Grp 2 date10.

Definition validity_unknown_text : str := U "有效期未知".

(** [m.group(n)[5:]]; subscripting [None] is a type error *)
Definition group_from5 (text : str) (m : mobj) (n : nat) : result str :=
  match group text m n with
  | Some g => Ok (skipn 5 g)
  | None => Raise TypeError
  end.

Definition parse_validity_short (validity : str) : result str :=
  if negb (truthy validity) || str_eqb validity unknown_validity
  then Ok validity_unknown_text
  else
    match search date_range_pattern validity with
    | Some date_match =>
        start_short <- group_from5 validity date_match 1 ;;
        end_short <- group_from5 validity date_match 2 ;;
        Ok (start_short ++ U " 至 " ++ end_short)
    | None =>
        Ok (if Nat.ltb 20 (List.length validity)
            then firstn 20 validity
            else validity)
    end.

(** *** get_activity_dates *)

(** Truth value of a JSON value *)
Definition truthy_json (v : json) : bool :=
  match v with
  | JNull => false
  | JBool b => b
  | JNum n => negb (Z.eqb n 0)
  | JStr s => truthy s
  | JArr l => match l with [] => false | _ :: _ => true end
  | JObj l => match l with [] => false | _ :: _ => true end
  end.

Definition get_activity_dates (calendar_data : list dict) : list json :=
  flat_map
    (fun day_data =>
       if truthy_json (dict_get day_data (U "date"))
       then [dict_get day_data (U "date")]
       else [])
    calendar_data.

(** *** generate_cron_schedule *)

(** [d.get(key, default)] *)
Fixpoint dict_get_or (d : dict) (key : str) (default : json) : json :=
  match d with
  | [] => default
  | (k, v) :: d' => if str_eqb k key then v else dict_get_or d' key default
  end.

(** The dictionaries [parse_calendar_activities] and
    [parse_activity_details] build, as the lookups see them. *)
Definition activity_dict (a : ActivityRecord) : json :=
  JObj [(U "title", JStr (title a)); (U "content", JStr (content a));
        (U "img", JStr (img a))].

Definition day_dict (d : DayActivities) : dict :=
  [(U "date", JStr (date d)); (U "count", JNum (count d));
   (U "activities", JArr (map activity_dict (activities d)))].

(** [datetime.strptime(v, fmt)] for a JSON value: only a string is
    accepted. *)
Definition strptime_json (v : json) : result datetime :=
  match v with
  | JStr s => strptime_ymd s
  | _ => Raise TypeError
  end.

(** The day before a date; there is none before the first day of year 1. *)
Definition day_before (y m d : Z) : result (Z * Z * Z) :=
  if (1 <? d)%Z then Ok (y, m, (d - 1)%Z)
  else if (1 <? m)%Z then Ok (y, (m - 1)%Z, days_in_month y (m - 1))
  else if (1 <? y)%Z then Ok ((y - 1)%Z, 12%Z, 31%Z)
  else Raise OverflowError.

(** [t - timedelta(hours=8)] *)
Definition minus_8_hours (t : datetime) : result datetime :=
  if (8 <=? hour t)%Z
  then Ok {| Datetime.year := Datetime.year t; Datetime.month := Datetime.month t;
             Datetime.day := Datetime.day t; hour := (hour t - 8)%Z;
             minute := minute t; second := second t;
             microsecond := microsecond t |}
  else
    ymd <- day_before (Datetime.year t) (Datetime.month t) (Datetime.day t) ;;
    let '(y, m, d) := ymd in
    Ok {| Datetime.year := y; Datetime.month := m; Datetime.day := d;
          hour := (hour t + 16)%Z;
          minute := minute t; second := second t;
          microsecond := microsecond t |}.

Record Schedule : Type :=
  { s_date : json; s_cron : str; s_activities_count : json }.

(** The format string [5 16 {utc_date.day} {utc_date.month} *] *)
Definition cron_line (utc_date : datetime) : str :=
  U "5 16 " ++ fmt_d (Datetime.day utc_date) ++ [SPACE]
  ++ fmt_d (Datetime.month utc_date) ++ U " *".

(** The body of the [try]: a [ValueError] raised in it is caught and the
    record skipped; any other exception leaves the function. *)
Definition schedule_of (day_data : dict) (date_str : json) : result Schedule :=
  activity_date <- strptime_json date_str ;;
  utc_date <- minus_8_hours activity_date ;;
  Ok {| s_date := date_str;
        s_cron := cron_line utc_date;
        s_activities_count := dict_get_or day_data (U "count") (JNum 0) |}.

Fixpoint cron_loop (calendar_data : list dict) (schedules : list Schedule)
  : result (list Schedule) :=
  match calendar_data with
  | [] => Ok schedules
  | day_data :: calendar_data' =>
      let date_str := dict_get day_data (U "date") in
      if negb (truthy_json date_str) then cron_loop calendar_data' schedules
      else
        match schedule_of day_data date_str with
        | Ok s => cron_loop calendar_data' (schedules ++ [s])
        | Raise ValueError => cron_loop calendar_data' schedules
        | Raise e => Raise e
        end
  end.

Definition generate_cron_schedule (calendar_data : list dict)
  : result (list Schedule) :=
  cron_loop calendar_data [].

(** ** Notions used by the further properties *)

(** An activity record with a title that is not empty and has no blank at
    either end, and a content of at most 303 characters. *)
Definition activity_ok (a : ActivityRecord) : Prop :=
  title a <> [] /\ strip (title a) = title a /\ List.length (content a) <= 303.

(** [d] is the record of header [j]: its date is the one the header
    resolves to and its activities are those of the text after the header. *)
Definition record_at (text : str) (current_date : datetime)
    (matches : list mobj) (j : nat) (d : DayActivities) : Prop :=
  exists m y mo dd,
    nth_error matches j = Some m /\
    resolve text (Datetime.year current_date) m = Ok (y, mo, dd) /\
    date d = fmt_date y mo dd /\
    activities d = parse_activity_details (day_content text matches j m).

(** What [html_escape] writes for one character. *)
Definition escape_char (c : char) : str :=
  if N.eqb c (ch "&") then U "&amp;"
  else if N.eqb c (ch "<") then U "&lt;"
  else if N.eqb c (ch ">") then U "&gt;"
  else if N.eqb c QUOTE then U "&quot;"
  else [c].

(** Every blank of the text is a plain space followed by a character that
    is not a blank (or by nothing). *)
Fixpoint spaced (s : str) : bool :=
  match s with
  | [] => true
  | c :: r =>
      (if isspace c
       then N.eqb c SPACE
            && match r with c' :: _ => negb (isspace c') | [] => true end
       else true)
      && spaced r
  end.

Definition collapse_blanks (s : str) : str := sub blanks [SPACE] s.

Arguments collapse_blanks s : simpl never.

(** Patterns without groups and lookahead. *)
Fixpoint plain (r : regex) : bool :=
  match r with
  | Grp _ _ | Ahead _ => false
  | Cat r1 r2 | Alt r1 r2 => plain r1 && plain r2
  | Opt r1 => plain r1
  | Emp | Chr _ | Star _ _ | Bol | Eol => true
  end.

(** The texts a pattern can take, read as a regular expression (anchors
    take nothing). *)
Fixpoint lang (r : regex) (w : str) : Prop :=
  match r with
  | Emp => w = []
  | Chr p => exists c, w = [c] /\ p c = true
  | Cat r1 r2 => exists w1 w2, w = w1 ++ w2 /\ lang r1 w1 /\ lang r2 w2
  | Alt r1 r2 => lang r1 w \/ lang r2 w
  | Star _ p => Forall (fun c => p c = true) w
  | Opt r1 => w = [] \/ lang r1 w
  | Grp _ r1 => lang r1 w
  | Ahead _ => w = []
  | Bol => w = []
  | Eol => w = []
  end.

(** A decimal number: digits, or digits, a dot and digits. *)
Definition digits (w : str) : Prop :=
  w <> [] /\ Forall (fun c => isdigit c = true) w.

Definition decimal (w : str) : Prop :=
  digits w \/ exists a b, w = a ++ ch "." :: b /\ digits a /\ digits b.

(** **** Checks by enumeration, for the dates *)

(** [f] holds for the [n] integers from [z] on. *)
Fixpoint all_from (n : nat) (z : Z) (f : Z -> bool) : bool :=
  match n with
  | O => true
  | S k => f z && all_from k (z + 1)%Z f
  end.

(** The year is printed as four digits that read back as the year. *)
Definition year_ok (y : Z) : bool :=
  match fmt_d y with
  | [c1; c2; c3; c4] =>
      isdigit c1 && isdigit c2 && isdigit c3 && isdigit c4
      && Z.eqb (int [c1; c2; c3; c4]) y
  | _ => false
  end.

(** The part of the [strptime] pattern after the year. *)
Definition ymd_rest : regex :=
  Cat (Chr (lit (ch "-")))
 (Cat (Grp 2 (Alt (Cat (Chr (lit (ch "1"))) (Chr (range (ch "0") (ch "2"))))
             (Alt (Cat (Chr (lit (ch "0"))) (Chr (range (ch "1") (ch "9"))))
                  (Chr (range (ch "1") (ch "9"))))))
 (Cat (Chr (lit (ch "-")))
      (Grp 3 (Alt (Cat (Chr (lit (ch "3"))) (Chr (range (ch "0") (ch "1"))))
             (Alt (Cat (Chr (range (ch "1") (ch "2"))) (Chr digit))
             (Alt (Cat (Chr (lit (ch "0"))) (Chr (range (ch "1") (ch "9"))))
             (Alt (Chr (range (ch "1") (ch "9")))
                  (Cat (Chr (lit SPACE)) (Chr (range (ch "1") (ch "9"))))))))))).

(** The month and day part of a formatted date. *)
Definition month_day_text (m d : Z) : str :=
  [ch "-"] ++ fmt_02d m ++ [ch "-"] ++ fmt_02d d.

(** After a four-character year the pattern takes the whole month and day
    part, and its groups read back as the month and the day. *)
Definition month_day_ok (m d : Z) : bool :=
  let tail := month_day_text m d in
  match rmatch ymd_rest (final false 0) (MState 4 tail [(1, (0, 4))]) with
  | Some st =>
      Nat.eqb (pos st) (4 + List.length tail)
      && (match span_of 1 (caps st), span_of 2 (caps st), span_of 3 (caps st) with
          | Some (a1, b1), Some (a2, b2), Some (a3, b3) =>
              Nat.eqb a1 0 && Nat.eqb b1 4 && Nat.leb 4 a2 && Nat.leb 4 a3
              && Z.eqb (int (slice tail (a2 - 4) (b2 - 4))) m
              && Z.eqb (int (strip (slice tail (a3 - 4) (b3 - 4)))) d
          | _, _, _ => false
          end)
  | None => false
  end.

(** The schedule entry of a record of the calendar data: the record has a
    date string that reads as a date, and the line names the day before. *)
Definition schedule_entry_of (calendar_data : list dict) (s : Schedule) : Prop :=
  exists day_data text t y m d,
    In day_data calendar_data /\
    dict_get day_data (U "date") = JStr text /\
    s_date s = JStr text /\
    strptime_ymd text = Ok t /\
    day_before (Datetime.year t) (Datetime.month t) (Datetime.day t)
    = Ok (y, m, d) /\
    s_cron s = U "5 16 " ++ fmt_d d ++ [SPACE] ++ fmt_d m ++ U " *" /\
    s_activities_count s = dict_get_or day_data (U "count") (JNum 0).

(** A record whose date was written from a valid date of a four-digit
    year. *)
Definition dated (d : DayActivities) : Prop :=
  exists y mo dd t,
    date d = fmt_date y mo dd /\ (1000 <= y)%Z /\ Datetime.mk y mo dd = Ok t.

(** The first day [datetime] has: eight hours before its midnight there is
    none. *)
Definition first_day : datetime :=
  {| Datetime.year := 1; Datetime.month := 1; Datetime.day := 1;
     hour := 0; minute := 0; second := 0; microsecond := 0 |}.

(** What [generate_cron_schedule] needs of the date of a record: empty
    values are passed over, anything else is a string, and not one that
    reads as the first day. *)
Definition schedulable (day_data : dict) : Prop :=
  let v := dict_get day_data (U "date") in
  truthy_json v = true ->
  exists s, v = JStr s /\ strptime_ymd s <> Ok first_day.

(** Example values: a local clock on the morning of 17 January 2026 and on
    the next morning, the record [two_days] gives for the 18th, and its
    schedule entry. *)
Definition morning_17 : datetime :=
  {| Datetime.year := 2026; Datetime.month := 1; Datetime.day := 17;
     hour := 9; minute := 30; second := 0; microsecond := 0 |}.

Definition morning_18 : datetime :=
  {| Datetime.year := 2026; Datetime.month := 1; Datetime.day := 18;
     hour := 9; minute := 30; second := 0; microsecond := 0 |}.

Definition lunch_18 : DayActivities :=
  {| date := U "2026-01-18";
     count := 1;
     activities :=
       [{| title := U "午餐"; content := U "第二份半价"; img := [] |}] |}.

Definition entry_18 : Schedule :=
  {| s_date := JStr (U "2026-01-18");
     s_cron := U "5 16 17 1 *";
     s_activities_count := JNum 1 |}.

(** * Properties *)

Unset Implicit Arguments.

Arguments replace old new s : simpl never.

(** ** Strings *)

Lemma str_eqb_eq (a b : str) : str_eqb a b = true <-> a = b.
Proof.
  revert b; induction a as [|x a IH]; intros [|y b]; simpl;
    try (split; [discriminate | discriminate]); try tauto.
  rewrite andb_true_iff, N.eqb_eq, IH.
  split; [intros [-> ->]; reflexivity | intros H; inversion H; auto].
Qed.

Lemma contains_nil_r (sub : str) : sub <> [] -> contains sub [] = false.
Proof. destruct sub; [congruence | reflexivity]. Qed.

Lemma truthy_true (s : str) : truthy s = true <-> s <> [].
Proof. destruct s; simpl; split; congruence. Qed.

(** ** The matcher *)

Section Matcher.

Lemma star_greedy_ext p k1 k2 cs :
  (forall st, k1 st = k2 st) ->
  forall s i, star_greedy p k1 cs i s = star_greedy p k2 cs i s.
Proof.
  intros Hk. induction s as [|c s IH]; intros i; simpl.
  - apply Hk.
  - rewrite IH, Hk. reflexivity.
Qed.

Lemma star_lazy_ext p k1 k2 cs :
  (forall st, k1 st = k2 st) ->
  forall s i, star_lazy p k1 cs i s = star_lazy p k2 cs i s.
Proof.
  intros Hk. induction s as [|c s IH]; intros i; simpl.
  - rewrite Hk. reflexivity.
  - rewrite IH, Hk. reflexivity.
Qed.

Lemma rmatch_ext r :
  forall k1 k2 st, (forall st', k1 st' = k2 st') -> rmatch r k1 st = rmatch r k2 st.
Proof.
  induction r; intros k1 k2 st Hk; simpl.
  - apply Hk.
  - destruct (rest st); [reflexivity|]. destruct (p c); [apply Hk | reflexivity].
  - apply IHr1. intros st'. apply IHr2. exact Hk.
  - rewrite (IHr1 k1 k2 st Hk), (IHr2 k1 k2 st Hk). reflexivity.
  - destruct greedy; [apply star_greedy_ext | apply star_lazy_ext]; exact Hk.
  - rewrite (IHr k1 k2 st Hk), Hk. reflexivity.
  - apply IHr. intros st'. apply Hk.
  - destruct (rmatch r Some st); [apply Hk | reflexivity].
  - destruct (Nat.eqb (pos st) 0); [apply Hk | reflexivity].
  - destruct (rest st) as [|c [|c' s]]; [apply Hk | | reflexivity].
    destruct (N.eqb c NL); [apply Hk | reflexivity].
Qed.

(** A function applied to the final state commutes with the matcher. *)
Lemma star_greedy_map (f : mstate -> mstate) p k cs :
  forall s i,
    star_greedy p (fun st => option_map f (k st)) cs i s
    = option_map f (star_greedy p k cs i s).
Proof.
  induction s as [|c s IH]; intros i; simpl; [reflexivity|].
  destruct (p c); [|reflexivity].
  rewrite IH. destruct (star_greedy p k cs (S i) s); reflexivity.
Qed.

Lemma star_lazy_map (f : mstate -> mstate) p k cs :
  forall s i,
    star_lazy p (fun st => option_map f (k st)) cs i s
    = option_map f (star_lazy p k cs i s).
Proof.
  induction s as [|c s IH]; intros i; simpl.
  - destruct (k (MState i [] cs)); reflexivity.
  - destruct (k (MState i (c :: s) cs)); [reflexivity|]. simpl.
    destruct (p c); [apply IH | reflexivity].
Qed.

Lemma rmatch_map (f : mstate -> mstate) r :
  forall k st,
    rmatch r (fun st' => option_map f (k st')) st = option_map f (rmatch r k st).
Proof.
  induction r; intros k st; simpl.
  - reflexivity.
  - destruct (rest st); [reflexivity|]. destruct (p c); reflexivity.
  - rewrite <- IHr1. apply rmatch_ext. intros st'. apply IHr2.
  - rewrite IHr1, IHr2. destruct (rmatch r1 k st); reflexivity.
  - destruct greedy; [apply star_greedy_map | apply star_lazy_map].
  - rewrite IHr. destruct (rmatch r k st); reflexivity.
  - rewrite <- IHr. reflexivity.
  - destruct (rmatch r Some st); reflexivity.
  - destruct (Nat.eqb (pos st) 0); reflexivity.
  - destruct (rest st) as [|c [|c' s]]; try reflexivity.
    destruct (N.eqb c NL); reflexivity.
Qed.

(** Shifting the positions of the start state shifts those of every state
    the continuation sees. *)
Lemma star_greedy_shift d p k cs :
  forall s i,
    star_greedy p k (shift_caps d cs) (i + d) s
    = star_greedy p (fun st => k (shift_st d st)) cs i s.
Proof.
  induction s as [|c s IH]; intros i; simpl; [reflexivity|].
  destruct (p c); [|reflexivity].
  rewrite <- IH. reflexivity.
Qed.

Lemma star_lazy_shift d p k cs :
  forall s i,
    star_lazy p k (shift_caps d cs) (i + d) s
    = star_lazy p (fun st => k (shift_st d st)) cs i s.
Proof.
  induction s as [|c s IH]; intros i; simpl; [reflexivity|].
  unfold shift_st at 1; simpl.
  destruct (k (MState (i + d) (c :: s) (shift_caps d cs))); [reflexivity|].
  destruct (p c); [|reflexivity].
  rewrite <- IH. reflexivity.
Qed.

Lemma rmatch_shift d r :
  bol_free r = true ->
  forall k st,
    rmatch r k (shift_st d st) = rmatch r (fun st' => k (shift_st d st')) st.
Proof.
  induction r; intros Hb k st; simpl in *;
    try (apply andb_true_iff in Hb as [Hb1 Hb2]).
  - reflexivity.
  - destruct (rest st); [reflexivity|]. destruct (p c); reflexivity.
  - rewrite (IHr1 Hb1). apply rmatch_ext. intros st'. apply (IHr2 Hb2).
  - rewrite (IHr1 Hb1), (IHr2 Hb2). reflexivity.
  - destruct greedy; [apply star_greedy_shift | apply star_lazy_shift].
  - rewrite (IHr Hb). reflexivity.
  - rewrite (IHr Hb). reflexivity.
  - rewrite (IHr Hb).
    change (fun st' : mstate => Some (shift_st d st'))
      with (fun st' : mstate => option_map (shift_st d) (Some st')).
    rewrite rmatch_map. destruct (rmatch r Some st); reflexivity.
  - discriminate.
  - destruct (rest st) as [|c [|c' s]]; try reflexivity.
Qed.

Lemma match_at_shift r must_advance d i s :
  bol_free r = true ->
  match_at r must_advance (i + d) s
  = option_map (shift_mobj d) (match_at r must_advance i s).
Proof.
  intros Hb. unfold match_at.
  change (MState (i + d) s []) with (shift_st d (MState i s [])).
  rewrite (rmatch_shift d r Hb).
  rewrite (rmatch_ext r _
             (fun st' => option_map (shift_st d) (final must_advance i st'))).
  - rewrite rmatch_map.
    destruct (rmatch r _ (MState i s [])); reflexivity.
  - intros st'. unfold final. simpl.
    replace (Nat.eqb (pos st' + d) (i + d)) with (Nat.eqb (pos st') i).
    + destruct (must_advance && Nat.eqb (pos st') i); reflexivity.
    + destruct (Nat.eqb_spec (pos st') i), (Nat.eqb_spec (pos st' + d) (i + d));
        try reflexivity; lia.
Qed.

Lemma search_from_shift r d :
  bol_free r = true ->
  forall s i,
    search_from r (i + d) s = option_map (shift_mobj d) (search_from r i s).
Proof.
  intros Hb. induction s as [|c s IH]; intros i; simpl;
    rewrite (match_at_shift r false d i _ Hb);
    destruct (match_at r false i _); try reflexivity.
  apply (IH (S i)).
Qed.

Lemma scan_shift r d :
  bol_free r = true ->
  forall s i skip,
    scan r (i + d) s skip = map (shift_mobj d) (scan r i s skip).
Proof.
  intros Hb. induction s as [|c s IH]; intros i skip.
  - destruct skip; simpl; [|reflexivity].
    rewrite !(match_at_shift r _ d i _ Hb).
    destruct (match_at r false i []) as [m|]; simpl; [|reflexivity].
    replace (Nat.eqb (m_end m + d) (i + d)) with (Nat.eqb (m_end m) i)
      by (destruct (Nat.eqb_spec (m_end m) i),
            (Nat.eqb_spec (m_end m + d) (i + d)); try reflexivity; lia).
    destruct (Nat.eqb (m_end m) i); simpl; [|reflexivity].
    destruct (match_at r true i []); reflexivity.
  - destruct skip; simpl; [|apply (IH (S i))].
    rewrite !(match_at_shift r _ d i _ Hb).
    destruct (match_at r false i (c :: s)) as [m|]; simpl; [|apply (IH (S i))].
    replace (Nat.eqb (m_end m + d) (i + d)) with (Nat.eqb (m_end m) i)
      by (destruct (Nat.eqb_spec (m_end m) i),
            (Nat.eqb_spec (m_end m + d) (i + d)); try reflexivity; lia).
    destruct (Nat.eqb (m_end m) i); simpl.
    + destruct (match_at r true i (c :: s)) as [m'|]; simpl.
      * rewrite <- (IH (S i)). do 2 f_equal. f_equal. lia.
      * rewrite <- (IH (S i)). reflexivity.
    + rewrite <- (IH (S i)). do 2 f_equal. lia.
Qed.

Lemma scan_skip r :
  forall n s i, n <= List.length s -> scan r i s n = scan r (i + n) (skipn n s) 0.
Proof.
  induction n as [|n IH]; intros s i Hn.
  - rewrite Nat.add_0_r. reflexivity.
  - destruct s as [|c s]; simpl in Hn; [lia|].
    simpl scan. rewrite IH by lia. simpl. f_equal. lia.
Qed.

End Matcher.

(** ** Slices *)

Lemma skipn_length_app {A} (w t : list A) : skipn (List.length w) (w ++ t) = t.
Proof. induction w; simpl; auto. Qed.

Lemma skipn_add_app {A} (w t : list A) (a : nat) :
  skipn (a + List.length w) (w ++ t) = skipn a t.
Proof.
  induction w as [|x w IH]; simpl.
  - rewrite Nat.add_0_r. reflexivity.
  - rewrite Nat.add_succ_r. simpl. exact IH.
Qed.

Lemma slice_shift (w t : str) (a b : nat) :
  slice (w ++ t) (a + List.length w) (b + List.length w) = slice t a b.
Proof.
  unfold slice. rewrite skipn_add_app. f_equal. lia.
Qed.

Lemma slice_prefix (w t : str) (b : nat) :
  slice (w ++ t) 0 (b + List.length w) = w ++ slice t 0 b.
Proof.
  unfold slice. simpl. rewrite !Nat.sub_0_r.
  induction w as [|x w IH]; simpl.
  - rewrite Nat.add_0_r. reflexivity.
  - rewrite Nat.add_succ_r. simpl. rewrite IH. reflexivity.
Qed.

Lemma slice_all (s : str) : slice s 0 (List.length s) = s.
Proof. unfold slice. simpl. rewrite Nat.sub_0_r. apply firstn_all. Qed.

Lemma span_of_shift d n cs :
  span_of n (shift_caps d cs)
  = option_map (fun ab => (fst ab + d, snd ab + d)) (span_of n cs).
Proof.
  induction cs as [|[n' [a b]] cs IH]; simpl; [reflexivity|].
  destruct (Nat.eqb n n'); [reflexivity | exact IH].
Qed.

Lemma group_shift (w t : str) (m : mobj) (n : nat) :
  group (w ++ t) (shift_mobj (List.length w) m) n = group t m n.
Proof.
  unfold group, shift_mobj; simpl. rewrite span_of_shift.
  destruct (span_of n (m_caps m)) as [[a b]|]; simpl; [|reflexivity].
  rewrite slice_shift. reflexivity.
Qed.

(** ** Scanning, step by step *)

Section Scanning.

Variable r : regex.
Hypothesis r_bol_free : bol_free r = true.

Lemma match_at_start must_advance i s m :
  match_at r must_advance i s = Some m -> m_start m = i.
Proof.
  unfold match_at. destruct (rmatch r _ _); intros H; inversion H; reflexivity.
Qed.

Lemma finditer_nil : match_at r false 0 [] = None -> finditer r [] = [].
Proof. intros H. unfold finditer; simpl. rewrite H. reflexivity. Qed.

Lemma finditer_nomatch c s :
  match_at r false 0 (c :: s) = None ->
  finditer r (c :: s) = map (shift_mobj 1) (finditer r s).
Proof.
  intros H. unfold finditer; simpl. rewrite H.
  apply (scan_shift r 1 r_bol_free s 0 0).
Qed.

Lemma finditer_match w t m :
  match_at r false 0 (w ++ t) = Some m ->
  m_end m = List.length w ->
  w <> [] ->
  finditer r (w ++ t) = m :: map (shift_mobj (List.length w)) (finditer r t).
Proof.
  intros H He Hw. destruct w as [|c w]; [congruence|].
  unfold finditer. simpl app in *. simpl scan. rewrite H.
  rewrite He. simpl. f_equal.
  rewrite Nat.sub_0_r, scan_skip by (rewrite length_app; lia).
  rewrite skipn_length_app.
  apply (scan_shift r (S (List.length w)) r_bol_free t 0 0).
Qed.

Lemma sub_at_shift repl (w t : str) :
  forall ms last,
    sub_at repl (w ++ t) (last + List.length w)
      (map (shift_mobj (List.length w)) ms)
    = sub_at repl t last ms.
Proof.
  induction ms as [|m ms IH]; intros last; simpl.
  - rewrite length_app, (Nat.add_comm (List.length w)). apply slice_shift.
  - rewrite slice_shift, IH. reflexivity.
Qed.

Lemma sub_at_prefix repl (w t : str) :
  forall ms,
    sub_at repl (w ++ t) 0 (map (shift_mobj (List.length w)) ms)
    = w ++ sub_at repl t 0 ms.
Proof.
  intros [|m ms]; simpl.
  - rewrite length_app, (Nat.add_comm (List.length w)), slice_prefix.
    reflexivity.
  - rewrite slice_prefix, sub_at_shift, <- app_assoc. reflexivity.
Qed.

Lemma sub_nil repl : match_at r false 0 [] = None -> sub r repl [] = [].
Proof. intros H. unfold sub. rewrite finditer_nil by assumption. reflexivity. Qed.

Lemma sub_nomatch repl c s :
  match_at r false 0 (c :: s) = None ->
  sub r repl (c :: s) = c :: sub r repl s.
Proof.
  intros H. unfold sub. rewrite finditer_nomatch by assumption.
  apply (sub_at_prefix repl [c] s).
Qed.

Lemma sub_match repl w t m :
  match_at r false 0 (w ++ t) = Some m ->
  m_end m = List.length w ->
  w <> [] ->
  sub r repl (w ++ t) = repl ++ sub r repl t.
Proof.
  intros H He Hw. unfold sub. rewrite (@finditer_match w t m) by assumption. simpl.
  rewrite (@match_at_start false 0 (w ++ t) m H), He.
  change (slice (w ++ t) 0 0) with (@nil char). simpl.
  f_equal. apply (sub_at_shift repl w t (finditer r t) 0).
Qed.




Lemma search_match s m :
  match_at r false 0 s = Some m -> search r s = Some m.
Proof. intros H. unfold search. destruct s; simpl; rewrite H; reflexivity. Qed.

Lemma search_nil : match_at r false 0 [] = None -> search r [] = None.
Proof. intros H. unfold search; simpl. rewrite H. reflexivity. Qed.

Lemma search_nomatch c s :
  match_at r false 0 (c :: s) = None ->
  search r (c :: s) = option_map (shift_mobj 1) (search r s).
Proof.
  intros H. unfold search; simpl. rewrite H.
  apply (search_from_shift r 1 r_bol_free s 0).
Qed.

End Scanning.

(** ** The calendar *)

Section CalendarLoop.

Variables (text : str) (current_date : datetime) (matches : list mobj).

Lemma skipn_cons_nth {A} (l : list A) :
  forall i x t, skipn i l = x :: t -> nth_error l i = Some x /\ skipn (S i) l = t.
Proof.
  induction l as [|a l IH]; intros [|i] x t H; simpl in *; try discriminate.
  - inversion H; subst; split; reflexivity.
  - destruct (IH i x t H) as [H1 H2]. split; [exact H1 | exact H2].
Qed.

Lemma calendar_loop_records :
  forall todo i acc out,
    skipn i matches = todo ->
    calendar_loop text current_date matches i todo acc = Ok out ->
    Forall (record_of_header text current_date matches) acc ->
    Forall (record_of_header text current_date matches) out.
Proof.
  induction todo as [|m todo IH]; intros i acc out Hsk Hrun Hacc; simpl in Hrun.
  - inversion Hrun; subst; exact Hacc.
  - destruct (skipn_cons_nth matches i m todo Hsk) as [Hnth Hsk'].
    destruct (resolve text (Datetime.year current_date) m)
      as [[[y mo] dd]|e] eqn:Hres; simpl in Hrun; [|discriminate].
    destruct (negb (mo =? Datetime.month current_date)%Z
              || negb (y =? Datetime.year current_date)%Z) eqn:Hflt.
    { eapply IH; eauto. }
    apply orb_false_elim in Hflt as [Hmo Hy].
    apply negb_false_iff, Z.eqb_eq in Hmo, Hy.
    destruct (Datetime.mk y mo dd) as [ad|e] eqn:Hmk; simpl in Hrun; [|discriminate].
    destruct (Datetime.lt ad (midnight current_date)) eqn:Hlt.
    { eapply IH; eauto. }
    fold (day_content text matches i m) in Hrun.
    destruct (parse_activity_details (day_content text matches i m))
      as [|a l] eqn:Hdet.
    { eapply IH; eauto. }
    eapply IH; eauto.
    apply Forall_app; split; [exact Hacc|].
    constructor; [|constructor].
    exists i, m, y, mo, dd, ad; simpl.
    rewrite Hdet. repeat split; auto. discriminate.
Qed.

End CalendarLoop.

Lemma parse_calendar_records now text server_date acts :
  parse_calendar_activities now text server_date = Ok acts ->
  acts = [] \/
  exists current_date,
    reference_date now server_date = Ok current_date /\
    Forall (record_of_header text current_date (finditer date_pattern text)) acts.
Proof.
  unfold parse_calendar_activities.
  destruct (negb (truthy text)).
  - intros H; inversion H; left; reflexivity.
  - destruct (reference_date now server_date) as [cur|e]; simpl; [|discriminate].
    intros H. right. exists cur. split; [reflexivity|].
    apply calendar_loop_records
      with (i := 0) (todo := finditer date_pattern text) (acc := []);
      [reflexivity | exact H | constructor].
Qed.

(** A date built in the reference month and year that is not earlier than
    the reference date at midnight has a day from the reference day on. *)
Lemma not_earlier_day (cur ad : datetime) (dd : Z) :
  Datetime.mk (Datetime.year cur) (Datetime.month cur) dd = Ok ad ->
  Datetime.lt ad (midnight cur) = false ->
  (Datetime.day cur <= dd)%Z.
Proof.
  unfold Datetime.mk.
  repeat match goal with |- context [if ?b then _ else _] => destruct b end;
    try discriminate.
  intros H; inversion H; subst; clear H.
  unfold Datetime.lt; simpl.
  rewrite !Z.ltb_irrefl, !Z.eqb_refl; simpl. intros H.
  apply orb_false_elim in H as [H _]. apply Z.ltb_ge in H. exact H.
Qed.

(** C1: [parse_calendar_activities] is claimed never to raise, a header
    with an impossible day being skipped.  On the header [#### 1月32日] with
    the reference date 2026-01-17 the month and year pass the filter and
    the date constructor raises [ValueError], which nothing catches. *)
Theorem calendar_day_32_raises :
  forall now,
    parse_calendar_activities now text_day_32 (Some (U "2026-01-17"))
    = Raise ValueError.
Proof. intros now. vm_compute. reflexivity. Qed.

(** C3: every record [parse_calendar_activities] returns comes from a date
    header that resolves to the month and the year of the reference date and
    to a day not before the reference day; with the reference date
    2026-01-17 the header of 2026年1月16日 gives no record and the header of
    2026年1月18日 gives one. *)
Theorem calendar_keeps_month_from_reference_day :
  (forall now text server_date current_date acts,
      reference_date now server_date = Ok current_date ->
      parse_calendar_activities now text server_date = Ok acts ->
      Forall
        (fun d =>
           exists i m y mo dd,
             nth_error (finditer date_pattern text) i = Some m /\
             resolve text (Datetime.year current_date) m = Ok (y, mo, dd) /\
             date d = fmt_date y mo dd /\
             mo = Datetime.month current_date /\
             y = Datetime.year current_date /\
             (Datetime.day current_date <= dd)%Z)
        acts)
  /\
  (forall now,
      parse_calendar_activities now two_days (Some (U "2026-01-17"))
      = Ok [{| date := U "2026-01-18";
               count := 1;
               activities :=
                 [{| title := U "午餐"; content := U "第二份半价"; img := [] |}]
            |}]).
Proof.
  split.
  - intros now text sd cur acts Href Hrun.
    destruct (parse_calendar_records now text sd acts Hrun) as [->|[cur' [Href' Hall]]].
    { constructor. }
    rewrite Href in Href'; inversion Href'; subst cur'.
    eapply Forall_impl; [|exact Hall].
    intros d (i & m & y & mo & dd & ad & Hn & Hr & Hmo & Hy & Hmk & Hlt & Hd & _).
    exists i, m, y, mo, dd. repeat split; auto.
    subst y mo. eapply not_earlier_day; eauto.
  - intros now. vm_compute. reflexivity.
Qed.

Lemma calendar_keeps_month_from_reference_day_witness :
  Forall
    (fun d =>
       exists i m y mo dd,
         nth_error (finditer date_pattern two_days) i = Some m /\
         resolve two_days 2026%Z m = Ok (y, mo, dd) /\
         date d = fmt_date y mo dd /\
         mo = 1%Z /\ y = 2026%Z /\ (17 <= dd)%Z)
    [{| date := U "2026-01-18";
        count := 1;
        activities :=
          [{| title := U "午餐"; content := U "第二份半价"; img := [] |}] |}].
Proof.
  apply (proj1 calendar_keeps_month_from_reference_day
           {| Datetime.year := 2026; Datetime.month := 1; Datetime.day := 17;
              hour := 9; minute := 30; second := 0; microsecond := 0 |}
           two_days (Some (U "2026-01-17"))
           {| Datetime.year := 2026; Datetime.month := 1; Datetime.day := 17;
              hour := 0; minute := 0; second := 0; microsecond := 0 |}).
  - vm_compute. reflexivity.
  - vm_compute. reflexivity.
Defined.

(** C5: every record [parse_calendar_activities] returns has at least one
    activity and a count equal to the number of its activities, and its
    activities are what [parse_activity_details] yields for the content of
    one header; a day whose content yields no activity has no record. *)
Theorem calendar_records_nonempty_counted :
  forall now text server_date acts,
    parse_calendar_activities now text server_date = Ok acts ->
    Forall
      (fun d =>
         activities d <> [] /\
         count d = Z.of_nat (List.length (activities d)) /\
         exists i m,
           nth_error (finditer date_pattern text) i = Some m /\
           activities d =
             parse_activity_details
               (day_content text (finditer date_pattern text) i m))
      acts.
Proof.
  intros now text sd acts Hrun.
  destruct (parse_calendar_records now text sd acts Hrun) as [->|[cur [_ Hall]]].
  { constructor. }
  eapply Forall_impl; [|exact Hall].
  intros d (i & m & y & mo & dd & ad & Hn & _ & _ & _ & _ & _ & _ & Hact & Hne & Hc).
  repeat split; auto. exists i, m. split; assumption.
Qed.

Lemma calendar_records_nonempty_counted_witness :
  Forall
    (fun d =>
       activities d <> [] /\
       count d = Z.of_nat (List.length (activities d)) /\
       exists i m,
         nth_error (finditer date_pattern two_days) i = Some m /\
         activities d =
           parse_activity_details
             (day_content two_days (finditer date_pattern two_days) i m))
    [{| date := U "2026-01-18";
        count := 1;
        activities :=
          [{| title := U "午餐"; content := U "第二份半价"; img := [] |}] |}].
Proof.
  apply (calendar_records_nonempty_counted
           {| Datetime.year := 2026; Datetime.month := 1; Datetime.day := 17;
              hour := 9; minute := 30; second := 0; microsecond := 0 |}
           two_days (Some (U "2026-01-17"))).
  vm_compute. reflexivity.
Defined.

(** ** Activity blocks *)

(** C2: block 0 is claimed to have the title label stripped when it starts
    with it.  The strip is guarded by the label being absent from the block,
    so it never runs: a first block that starts with the label keeps it, and
    the first line, label included, becomes the title. *)
Theorem block_zero_keeps_label :
  parse_activity_details block_with_label
  = [{| title := U "**活动标题**：麦辣鸡腿堡";
        content := U "买一送一";
        img := [] |}].
Proof. vm_compute. reflexivity. Qed.

(** ** Claim results *)

(** C4: a text that contains one of the two phrases gives the fixed result
    with the message, whatever else it contains; and a result with a
    non-empty message has zero counts and no coupons. *)
Theorem claim_nothing_available :
  forall text,
    (contains (U "领券失败") text = true \/ contains (U "暂无可领取") text = true ->
     parse_claim_result text = Ok nothing_result)
    /\
    (forall r,
        parse_claim_result text = Ok r ->
        message r <> [] ->
        success r = 0%Z /\ failed r = 0%Z /\ coupons r = []).
Proof.
  intros text. unfold parse_claim_result. split.
  - intros H. destruct text as [|c text].
    + destruct H as [H|H]; vm_compute in H; discriminate.
    + cbn [truthy negb].
      replace (contains (U "领券失败") (c :: text)
               || contains (U "暂无可领取") (c :: text)) with true.
      * reflexivity.
      * symmetry. apply orb_true_iff. exact H.
  - intros r. destruct (negb (truthy text)).
    { intros H; inversion H; subst; simpl. congruence. }
    destruct (contains (U "领券失败") text || contains (U "暂无可领取") text).
    { intros H; inversion H; subst; simpl. auto. }
    destruct (int_or_zero text (search (count_pattern success_label) text));
      simpl; [|discriminate].
    destruct (int_or_zero text (search (count_pattern failed_label) text));
      simpl; [|discriminate].
    intros H; inversion H; subst; simpl. congruence.
Qed.

Lemma claim_nothing_available_witness :
  parse_claim_result (U "暂无可领取的优惠券 成功：3 失败：1 **优惠A**")
  = Ok nothing_result
  /\ (success nothing_result = 0%Z /\ failed nothing_result = 0%Z
      /\ coupons nothing_result = []).
Proof.
  pose proof (claim_nothing_available
                (U "暂无可领取的优惠券 成功：3 失败：1 **优惠A**")) as [H1 H2].
  split.
  - apply H1. right. vm_compute. reflexivity.
  - apply H2.
    + vm_compute. reflexivity.
    + vm_compute. discriminate.
Defined.

(** ** Coupons *)

(** C8: every coupon record is claimed to have a non-empty title.  The
    heading pattern can capture a blank and the record is appended without
    a test of the stripped title (the activity parser has that test): a
    heading line of blanks gives a record with an empty title. *)
Theorem coupon_blank_heading_empty_title :
  parse_my_coupons blank_heading
  = [{| c_title := []; c_price := U "0";
        c_validity := unknown_validity; c_img := [] |}].
Proof. vm_compute. reflexivity. Qed.

(** ** Today's activities *)

Lemma eq_str_true (v : json) (s : str) : eq_str v s = true <-> v = JStr s.
Proof.
  destruct v; simpl; try (split; [discriminate | discriminate]).
  rewrite str_eqb_eq. split; [intros ->; reflexivity | intros H; inversion H; auto].
Qed.

Lemma today_loop_first (today : str) (calendar_data : list dict) :
  match today_loop today calendar_data with
  | Some d =>
      exists before after,
        calendar_data = before ++ d :: after /\
        dict_get d (U "date") = JStr today /\
        Forall (fun d' => dict_get d' (U "date") <> JStr today) before
  | None =>
      Forall (fun d' => dict_get d' (U "date") <> JStr today) calendar_data
  end.
Proof.
  induction calendar_data as [|d l IH]; simpl.
  - constructor.
  - destruct (eq_str (dict_get d (U "date")) today) eqn:E.
    + exists [], l. repeat split; auto. apply eq_str_true; exact E.
    + assert (Hd : dict_get d (U "date") <> JStr today).
      { intro H. apply eq_str_true in H. congruence. }
      destruct (today_loop today l) as [d'|].
      * destruct IH as (before & after & -> & Hdate & Hbefore).
        exists (d :: before), after. repeat split; auto.
      * constructor; assumption.
Qed.

(** C10: [get_today_activities] returns the first record, in the order of
    the sequence, whose date is the string of today's date in the form
    YYYY-MM-DD, and no record when there is none; a later record of the same
    date is never the one returned. *)
Theorem today_is_first_record_of_date :
  forall now calendar_data,
    match get_today_activities now calendar_data with
    | Some d =>
        exists before after,
          calendar_data = before ++ d :: after /\
          dict_get d (U "date") = JStr (strftime_ymd now) /\
          Forall (fun d' => dict_get d' (U "date") <> JStr (strftime_ymd now))
                 before
    | None =>
        Forall (fun d' => dict_get d' (U "date") <> JStr (strftime_ymd now))
               calendar_data
    end.
Proof.
  intros now calendar_data. unfold get_today_activities.
  apply today_loop_first.
Qed.

(** ** clean_text *)

Lemma str_length_ind (P : str -> Prop) :
  (forall s, (forall t, List.length t < List.length s -> P t) -> P s) ->
  forall s, P s.
Proof.
  intros H s.
  assert (G : forall n t, List.length t < n -> P t).
  { induction n as [|n IH]; intros t Ht; [lia|].
    apply H. intros u Hu. apply IH. lia. }
  apply (G (S (List.length s))). lia.
Qed.

(** *** The blank-lines pattern *)

Lemma isspace_NL : isspace NL = true.
Proof. reflexivity. Qed.

Lemma not_space_not_NL (c : char) : isspace c = false -> N.eqb c NL = false.
Proof.
  intros H. destruct (N.eqb_spec c NL) as [->|]; [|reflexivity].
  rewrite isspace_NL in H. discriminate.
Qed.

Lemma blank_star :
  forall r i,
    star_greedy space (rmatch (Chr (lit NL)) (final false 0)) [] i r
    = option_map (fun n => MState (i + n) (skipn n r) []) (blank_len r).
Proof.
  induction r as [|c r IH]; intros i; simpl; [reflexivity|].
  unfold space at 1. destruct (isspace c) eqn:Hc.
  - rewrite IH. destruct (blank_len r) as [n|]; simpl.
    + rewrite Nat.add_succ_r. reflexivity.
    + unfold lit. destruct (N.eqb c NL); simpl; [|reflexivity].
      unfold final; simpl. rewrite Nat.add_1_r. reflexivity.
  - unfold lit. rewrite (not_space_not_NL _ Hc). reflexivity.
Qed.

Lemma match_blank (s : str) :
  match_at blank_lines false 0 s
  = match s with
    | c :: r =>
        if N.eqb c NL
        then option_map (fun n => MObj 0 (1 + n) []) (blank_len r)
        else None
    | [] => None
    end.
Proof.
  unfold match_at, blank_lines. destruct s as [|c r]; simpl; [reflexivity|].
  unfold lit at 1. destruct (N.eqb c NL); [|reflexivity].
  rewrite blank_star. destruct (blank_len r); reflexivity.
Qed.

Lemma blank_len_bounds :
  forall r n, blank_len r = Some n -> 0 < n /\ n <= List.length r.
Proof.
  induction r as [|c r IH]; intros n; simpl; [discriminate|].
  destruct (isspace c); [|discriminate].
  destruct (blank_len r) as [n'|].
  - intros H; inversion H; subst. destruct (IH n' eq_refl). lia.
  - destruct (N.eqb c NL); [|discriminate].
    intros H; inversion H; subst. lia.
Qed.

Lemma blank_len_rest :
  forall r n, blank_len r = Some n -> blank_len (skipn n r) = None.
Proof.
  induction r as [|c r IH]; intros n; simpl; [discriminate|].
  destruct (isspace c); [|discriminate].
  destruct (blank_len r) as [n'|] eqn:E.
  - intros H; inversion H; subst. simpl. apply IH. reflexivity.
  - destruct (N.eqb c NL); [|discriminate].
    intros H; inversion H; subst. simpl. exact E.
Qed.

Lemma blank_len_app :
  forall r w n, blank_len r = Some n -> blank_len (r ++ w) <> None.
Proof.
  induction r as [|c r IH]; intros w n; simpl; [discriminate|].
  destruct (isspace c); [|discriminate].
  destruct (blank_len r) as [n'|] eqn:E.
  - intros _. specialize (IH w n' eq_refl).
    destruct (blank_len (r ++ w)); [discriminate | congruence].
  - destruct (N.eqb c NL); [|discriminate].
    intros _. destruct (blank_len (r ++ w)); discriminate.
Qed.

(** *** Joining blank lines, step by step *)

Lemma blank_lines_bol_free : bol_free blank_lines = true.
Proof. reflexivity. Qed.

Lemma join_nil : join_blank_lines [] = [].
Proof.
  apply sub_nil. rewrite match_blank. reflexivity.
Qed.

Lemma join_other (c : char) (r : str) :
  N.eqb c NL = false -> join_blank_lines (c :: r) = c :: join_blank_lines r.
Proof.
  intros H. apply sub_nomatch; [reflexivity|].
  rewrite match_blank, H. reflexivity.
Qed.

Lemma join_keep (r : str) :
  blank_len r = None -> join_blank_lines (NL :: r) = NL :: join_blank_lines r.
Proof.
  intros H. apply sub_nomatch; [reflexivity|].
  rewrite match_blank, H. reflexivity.
Qed.

Lemma join_blank (r : str) (n : nat) :
  blank_len r = Some n ->
  join_blank_lines (NL :: r) = NL :: join_blank_lines (skipn n r).
Proof.
  intros H. destruct (blank_len_bounds r n H) as [Hpos Hle].
  rewrite <- (firstn_skipn n r) at 1.
  change (NL :: firstn n r ++ skipn n r) with ((NL :: firstn n r) ++ skipn n r).
  unfold join_blank_lines.
  rewrite sub_match with (m := MObj 0 (1 + n) []).
  - reflexivity.
  - reflexivity.
  - rewrite match_blank. simpl. rewrite (firstn_skipn n r), H. reflexivity.
  - simpl. rewrite length_firstn. f_equal. lia.
  - discriminate.
Qed.

Lemma join_cons (c : char) (r : str) : exists r' : str, join_blank_lines (c :: r) = c :: r'.
Proof.
  destruct (N.eqb_spec c NL) as [->|Hc].
  - destruct (blank_len r) as [n|] eqn:E.
    + rewrite (join_blank r n E). eexists; reflexivity.
    + rewrite (join_keep r E). eexists; reflexivity.
  - rewrite join_other by (apply N.eqb_neq; exact Hc). eexists; reflexivity.
Qed.

Lemma blank_len_join :
  forall r, blank_len r = None -> blank_len (join_blank_lines r) = None.
Proof.
  induction r as [|c r IH]; intros H.
  - rewrite join_nil. reflexivity.
  - simpl in H. destruct (isspace c) eqn:Hc.
    + destruct (blank_len r) eqn:E; [discriminate|].
      destruct (N.eqb c NL) eqn:Hnl; [discriminate|].
      rewrite (join_other c r Hnl). cbn [blank_len].
      rewrite Hc, (IH eq_refl), Hnl. reflexivity.
    + rewrite (join_other c r (not_space_not_NL _ Hc)). cbn [blank_len].
      rewrite Hc. reflexivity.
Qed.

Lemma settled_join : forall s, settled (join_blank_lines s) = true.
Proof.
  induction s as [s IH] using str_length_ind.
  destruct s as [|c r].
  - rewrite join_nil. reflexivity.
  - destruct (N.eqb c NL) eqn:Hc.
    + apply N.eqb_eq in Hc; subst c.
      destruct (blank_len r) as [n|] eqn:E.
      * rewrite (join_blank r n E). cbn [settled].
        rewrite N.eqb_refl, (blank_len_join _ (blank_len_rest r n E)).
        apply IH. simpl. rewrite length_skipn. lia.
      * rewrite (join_keep r E). cbn [settled].
        rewrite N.eqb_refl, (blank_len_join _ E).
        apply IH. simpl. lia.
    + rewrite (join_other c r Hc). cbn [settled]. rewrite Hc.
      apply IH. simpl. lia.
Qed.

Lemma join_settled : forall s, settled s = true -> join_blank_lines s = s.
Proof.
  induction s as [|c r IH]; intros H.
  - apply join_nil.
  - simpl in H. apply andb_true_iff in H as [H1 H2].
    destruct (N.eqb c NL) eqn:Hc.
    + apply N.eqb_eq in Hc; subst c.
      destruct (blank_len r) eqn:E; [discriminate|].
      rewrite (join_keep r E), (IH H2). reflexivity.
    + rewrite (join_other c r Hc), (IH H2). reflexivity.
Qed.

Lemma settled_suffix : forall w s, settled (w ++ s) = true -> settled s = true.
Proof.
  induction w as [|c w IH]; simpl; intros s H; [exact H|].
  apply andb_true_iff in H as [_ H]. apply IH; exact H.
Qed.

Lemma settled_prefix : forall s w, settled (s ++ w) = true -> settled s = true.
Proof.
  induction s as [|c s IH]; simpl; intros w H; [reflexivity|].
  apply andb_true_iff in H as [H1 H2].
  rewrite (IH w H2), andb_true_r.
  destruct (N.eqb c NL); [|reflexivity].
  destruct (blank_len s) as [n|] eqn:E; [|reflexivity].
  pose proof (blank_len_app s w n E) as Hne.
  destruct (blank_len (s ++ w)); [discriminate | congruence].
Qed.

(** *** strip *)

Lemma lstrip_suffix : forall s, exists w, s = w ++ lstrip s.
Proof.
  induction s as [|c s [w IH]]; simpl.
  - exists []; reflexivity.
  - destruct (isspace c).
    + exists (c :: w). simpl. rewrite <- IH. reflexivity.
    + exists []; reflexivity.
Qed.

Lemma rstrip_prefix : forall s, exists w, s = rstrip s ++ w.
Proof.
  intros s. unfold rstrip.
  destruct (lstrip_suffix (rev s)) as [w Hw].
  exists (rev w).
  rewrite <- rev_app_distr, <- Hw, rev_involutive. reflexivity.
Qed.

Lemma strip_middle : forall s, exists w1 w2, s = w1 ++ strip s ++ w2.
Proof.
  intros s. unfold strip.
  destruct (lstrip_suffix s) as [w1 H1].
  destruct (rstrip_prefix (lstrip s)) as [w2 H2].
  exists w1, w2. rewrite <- H2. exact H1.
Qed.

Lemma lstrip_head_ok : forall s, head_ok (lstrip s).
Proof.
  induction s as [|c s IH]; simpl; [exact I|].
  destruct (isspace c) eqn:E; [exact IH | exact E].
Qed.

Lemma lstrip_id : forall s, head_ok s -> lstrip s = s.
Proof. intros [|c s]; simpl; [reflexivity|]. intros ->. reflexivity. Qed.

Lemma lstrip_idem : forall s, lstrip (lstrip s) = lstrip s.
Proof. intros s. apply lstrip_id, lstrip_head_ok. Qed.

Lemma head_ok_prefix : forall u w, head_ok (u ++ w) -> head_ok u.
Proof. intros [|c u] w; simpl; auto. Qed.

Lemma strip_idem : forall s, strip (strip s) = strip s.
Proof.
  intros s. unfold strip.
  assert (H : lstrip (rstrip (lstrip s)) = rstrip (lstrip s)).
  { apply lstrip_id.
    destruct (rstrip_prefix (lstrip s)) as [w Hw].
    apply head_ok_prefix with (w := w). rewrite <- Hw. apply lstrip_head_ok. }
  rewrite H. unfold rstrip. rewrite rev_involutive, lstrip_idem. reflexivity.
Qed.

Lemma settled_strip : forall s, settled s = true -> settled (strip s) = true.
Proof.
  intros s H. destruct (strip_middle s) as (w1 & w2 & Hs).
  rewrite Hs in H. apply settled_suffix in H. apply settled_prefix in H.
  exact H.
Qed.

(** *** Occurrences of a two-character sequence *)

Lemma startswith2_cons (x y a : char) (s : str) :
  startswith [x; y] (a :: s)
  = N.eqb x a && match s with c :: _ => N.eqb y c | [] => false end.
Proof.
  simpl. destruct s as [|c s]; [reflexivity|]. rewrite andb_true_r. reflexivity.
Qed.

Lemma startswith2_true (x y : char) (s : str) :
  startswith [x; y] s = true -> exists r, s = x :: y :: r.
Proof.
  destruct s as [|a [|c r]]; simpl; try discriminate.
  - rewrite andb_false_r. discriminate.
  - rewrite andb_true_r. intros H. apply andb_true_iff in H as [H1 H2].
    apply N.eqb_eq in H1, H2. subst. exists r; reflexivity.
Qed.

Lemma contains_cons (sub : str) (a : char) (s : str) :
  contains sub (a :: s) = startswith sub (a :: s) || contains sub s.
Proof. reflexivity. Qed.

Lemma startswith_app (sub u v : str) :
  startswith sub u = true -> startswith sub (u ++ v) = true.
Proof.
  revert u; induction sub as [|x sub IH]; intros [|a u]; simpl; auto;
    try discriminate.
  intros H. apply andb_true_iff in H as [H1 H2].
  rewrite H1, (IH u H2). reflexivity.
Qed.

Lemma contains_suffix (sub u v : str) :
  contains sub (u ++ v) = false -> contains sub v = false.
Proof.
  induction u as [|a u IH]; intros H; [exact H|].
  simpl app in H. rewrite contains_cons in H.
  apply orb_false_elim in H as [_ H]. apply IH; exact H.
Qed.

Lemma contains_prefix (sub u v : str) :
  contains sub (u ++ v) = false -> contains sub u = false.
Proof.
  induction u as [|a u IH]; intros H.
  - destruct sub as [|x sub]; [|reflexivity].
    destruct v; simpl in H; discriminate.
  - simpl app in H. rewrite contains_cons in *.
    apply orb_false_elim in H as [H1 H2].
    rewrite (IH H2), orb_false_r.
    destruct (startswith sub (a :: u)) eqn:E; [|reflexivity].
    pose proof (startswith_app sub (a :: u) v E) as E'.
    simpl app in E'. congruence.
Qed.

Lemma contains_strip (sub s : str) :
  contains sub s = false -> contains sub (strip s) = false.
Proof.
  intros H. destruct (strip_middle s) as (w1 & w2 & Hs).
  rewrite Hs in H. apply contains_suffix in H. apply contains_prefix in H.
  exact H.
Qed.

(** *** Replacing a two-character sequence *)

Section Replace2.

Variables (x y : char) (new : str).

Lemma replace2_nil : replace [x; y] new [] = [].
Proof. reflexivity. Qed.

Lemma replace2_hit (r : str) :
  replace [x; y] new (x :: y :: r) = new ++ replace [x; y] new r.
Proof.
  unfold replace. cbn [replace_from].
  rewrite startswith2_cons, !N.eqb_refl. reflexivity.
Qed.

Lemma replace2_miss (a : char) (r : str) :
  startswith [x; y] (a :: r) = false ->
  replace [x; y] new (a :: r) = a :: replace [x; y] new r.
Proof.
  intros H. unfold replace. cbn [replace_from]. rewrite H. reflexivity.
Qed.

Lemma replace2_other (a : char) (r : str) :
  N.eqb x a = false ->
  replace [x; y] new (a :: r) = a :: replace [x; y] new r.
Proof.
  intros H. apply replace2_miss. rewrite startswith2_cons, H. reflexivity.
Qed.

Lemma replace2_id :
  forall s : str, contains [x; y] s = false -> replace [x; y] new s = s.
Proof.
  induction s as [|a s IH]; intros H; [reflexivity|].
  rewrite contains_cons in H. apply orb_false_elim in H as [H1 H2].
  rewrite (replace2_miss a s H1), (IH H2). reflexivity.
Qed.

End Replace2.

(** *** The escapes left by each step *)

Lemma ESC_N_eq : ESC_N = [BACKSLASH; n_char].
Proof. reflexivity. Qed.

Lemma unescape_n_clean :
  forall s : str, contains ESC_N (unescape_n s) = false.
Proof.
  induction s as [s IH] using str_length_ind.
  destruct s as [|a r]; [reflexivity|].
  rewrite ESC_N_eq in *. unfold unescape_n in *. rewrite ESC_N_eq in *.
  destruct (startswith [BACKSLASH; n_char] (a :: r)) eqn:E.
  - destruct (startswith2_true _ _ _ E) as [r' Hr]. inversion Hr; subst.
    rewrite (replace2_hit BACKSLASH n_char [NL] r'). simpl app.
    rewrite contains_cons, startswith2_cons.
    change (N.eqb BACKSLASH NL) with false. simpl.
    apply IH. simpl. lia.
  - rewrite (replace2_miss _ _ _ a r E).
    rewrite contains_cons, (IH r) by (simpl; lia).
    rewrite orb_false_r, startswith2_cons.
    rewrite startswith2_cons in E.
    destruct (N.eqb BACKSLASH a); [cbn [andb] in *|reflexivity].
    destruct r as [|c r']; [reflexivity|].
    destruct (startswith [BACKSLASH; n_char] (c :: r')) eqn:E2.
    + destruct (startswith2_true _ _ _ E2) as [r'' Hr]. inversion Hr; subst.
      rewrite (replace2_hit BACKSLASH n_char [NL] r''). reflexivity.
    + rewrite (replace2_miss _ _ _ c r' E2). exact E.
Qed.

Lemma drop_double_backslash_clean :
  forall s : str,
    contains ESC_N s = false ->
    contains ESC_N (drop_double_backslash s) = false
    /\ contains [BACKSLASH; BACKSLASH] (drop_double_backslash s) = false.
Proof.
  induction s as [s IH] using str_length_ind.
  destruct s as [|a r]; [split; reflexivity|].
  rewrite ESC_N_eq in *. unfold drop_double_backslash in *. intros H.
  rewrite contains_cons in H. apply orb_false_elim in H as [H1 H2].
  destruct (startswith [BACKSLASH; BACKSLASH] (a :: r)) eqn:E.
  - destruct (startswith2_true _ _ _ E) as [r' Hr]. inversion Hr; subst.
    rewrite (replace2_hit BACKSLASH BACKSLASH [] r'). simpl app.
    rewrite contains_cons in H2. apply orb_false_elim in H2 as [_ H2].
    apply IH; [simpl; lia | exact H2].
  - rewrite (replace2_miss _ _ _ a r E).
    destruct (IH r) as [G1 G2]; [simpl; lia | exact H2 |].
    rewrite !contains_cons, G1, G2, !orb_false_r, !startswith2_cons.
    rewrite startswith2_cons in E, H1.
    destruct (N.eqb BACKSLASH a); [cbn [andb] in *|split; reflexivity].
    destruct r as [|c r']; [split; reflexivity|].
    rewrite (replace2_other _ _ _ c r' E). split; assumption.
Qed.

Lemma unescape_space_clean :
  forall s : str,
    contains ESC_N s = false ->
    contains [BACKSLASH; BACKSLASH] s = false ->
    contains ESC_N (unescape_space s) = false
    /\ contains [BACKSLASH; BACKSLASH] (unescape_space s) = false
    /\ contains [BACKSLASH; SPACE] (unescape_space s) = false.
Proof.
  induction s as [s IH] using str_length_ind.
  destruct s as [|a r]; [repeat split; reflexivity|].
  rewrite ESC_N_eq in *. unfold unescape_space in *. intros Hn Hb.
  rewrite contains_cons in Hn, Hb.
  apply orb_false_elim in Hn as [Hn1 Hn2].
  apply orb_false_elim in Hb as [Hb1 Hb2].
  destruct (startswith [BACKSLASH; SPACE] (a :: r)) eqn:E.
  - destruct (startswith2_true _ _ _ E) as [r' Hr]. inversion Hr; subst.
    rewrite (replace2_hit BACKSLASH SPACE [SPACE] r'). simpl app.
    rewrite contains_cons in Hn2, Hb2.
    apply orb_false_elim in Hn2 as [_ Hn2].
    apply orb_false_elim in Hb2 as [_ Hb2].
    destruct (IH r') as (G1 & G2 & G3); [simpl; lia | exact Hn2 | exact Hb2 |].
    rewrite !contains_cons, G1, G2, G3, !orb_false_r, !startswith2_cons.
    change (N.eqb BACKSLASH SPACE) with false. repeat split; reflexivity.
  - rewrite (replace2_miss _ _ _ a r E).
    destruct (IH r) as (G1 & G2 & G3); [simpl; lia | exact Hn2 | exact Hb2 |].
    rewrite !contains_cons, G1, G2, G3, !orb_false_r, !startswith2_cons.
    rewrite startswith2_cons in E, Hn1, Hb1.
    destruct (N.eqb BACKSLASH a); [cbn [andb] in *|repeat split; reflexivity].
    destruct r as [|c r']; [repeat split; reflexivity|].
    rewrite (replace2_other _ _ _ c r' Hb1). repeat split; assumption.
Qed.

Lemma contains_join (x y : char) :
  N.eqb x NL = false ->
  forall s : str,
    contains [x; y] s = false -> contains [x; y] (join_blank_lines s) = false.
Proof.
  intros Hx. induction s as [s IH] using str_length_ind.
  destruct s as [|c r]; intros H.
  { rewrite join_nil. reflexivity. }
  rewrite contains_cons in H. apply orb_false_elim in H as [H1 H2].
  destruct (N.eqb c NL) eqn:Hc.
  - apply N.eqb_eq in Hc; subst c.
    assert (G : forall t : str,
               List.length t <= List.length r ->
               contains [x; y] t = false ->
               contains [x; y] (NL :: join_blank_lines t) = false).
    { intros t Hlen Ht. rewrite contains_cons, startswith2_cons, Hx. simpl.
      apply IH; [simpl; lia | exact Ht]. }
    destruct (blank_len r) as [n|] eqn:E.
    + rewrite (join_blank r n E). apply G.
      * rewrite length_skipn. lia.
      * apply contains_suffix with (u := firstn n r).
        rewrite firstn_skipn. exact H2.
    + rewrite (join_keep r E). apply G; [lia | exact H2].
  - rewrite (join_other c r Hc), contains_cons.
    rewrite (IH r) by (simpl; lia || exact H2).
    rewrite orb_false_r.
    rewrite startswith2_cons in *.
    destruct r as [|c' r'].
    + rewrite join_nil. exact H1.
    + destruct (join_cons c' r') as [r'' Hr]. rewrite Hr. exact H1.
Qed.

Lemma clean_text_cons (c : char) (t : str) :
  clean_text (c :: t)
  = strip (join_blank_lines
             (unescape_space (drop_double_backslash (unescape_n (c :: t))))).
Proof. reflexivity. Qed.

(** C9: [clean_text] is idempotent: cleaning a cleaned text changes
    nothing. *)
Theorem clean_text_idempotent :
  forall text : str, clean_text (clean_text text) = clean_text text.
Proof.
  intros text. destruct text as [|c t]; [reflexivity|].
  rewrite clean_text_cons.
  set (j := join_blank_lines
              (unescape_space (drop_double_backslash (unescape_n (c :: t))))).
  assert (Hs : settled (strip j) = true)
    by (apply settled_strip, settled_join).
  destruct (drop_double_backslash_clean _ (unescape_n_clean (c :: t)))
    as [A1 A2].
  destruct (unescape_space_clean _ A1 A2) as (B1 & B2 & B3).
  rewrite ESC_N_eq in B1.
  assert (C1 : contains [BACKSLASH; n_char] (strip j) = false)
    by (apply contains_strip, contains_join; [reflexivity | exact B1]).
  assert (C2 : contains [BACKSLASH; BACKSLASH] (strip j) = false)
    by (apply contains_strip, contains_join; [reflexivity | exact B2]).
  assert (C3 : contains [BACKSLASH; SPACE] (strip j) = false)
    by (apply contains_strip, contains_join; [reflexivity | exact B3]).
  destruct (strip j) as [|c' o] eqn:Ho; [reflexivity|].
  rewrite clean_text_cons.
  unfold unescape_n, drop_double_backslash, unescape_space.
  rewrite ESC_N_eq.
  rewrite (replace2_id _ _ _ _ C1), (replace2_id _ _ _ _ C2),
    (replace2_id _ _ _ _ C3).
  rewrite (join_settled _ Hs), <- Ho. apply strip_idem.
Qed.

(** ** Pieces of patterns *)

Lemma rmatch_Lit :
  forall (l : str) (k : cont) (st : mstate),
    rmatch (Lit l) k st
    = if startswith l (rest st)
      then k (MState (pos st + List.length l)
                     (skipn (List.length l) (rest st)) (caps st))
      else None.
Proof.
  induction l as [|c l IH]; intros k st.
  - destruct st as [i s cs]. simpl. rewrite Nat.add_0_r. reflexivity.
  - cbn [Lit rmatch]. destruct (rest st) as [|c' s'] eqn:Hr; [reflexivity|].
    unfold lit. cbn [startswith]. rewrite (N.eqb_sym c' c).
    destruct (N.eqb c c'); [|reflexivity].
    rewrite IH. cbn [pos rest caps andb List.length skipn].
    rewrite Nat.add_succ_r. reflexivity.
Qed.

Lemma bol_free_Lit : forall l : str, bol_free (Lit l) = true.
Proof. induction l as [|c l IH]; simpl; auto. Qed.

(** A greedy repetition stops at the end of the run when what follows
    succeeds there. *)
Lemma star_greedy_max (p : char -> bool) (k : cont) cs :
  forall (s : str) (i : nat) (st : mstate),
    k (MState (i + span p s) (dropwhile p s) cs) = Some st ->
    star_greedy p k cs i s = Some st.
Proof.
  induction s as [|c s IH]; intros i st; simpl.
  - rewrite Nat.add_0_r. auto.
  - destruct (p c).
    + rewrite Nat.add_succ_r. intros H. rewrite (IH (S i) st H). reflexivity.
    + rewrite Nat.add_0_r. auto.
Qed.






(** ** Coupons *)

Lemma parse_sections_records :
  forall (sections : list str) (coupons : list CouponRecord),
    parse_sections sections coupons = coupons ++ section_records sections.
Proof.
  induction sections as [|s l IH]; intros acc; simpl.
  - rewrite app_nil_r. reflexivity.
  - unfold section_records in *. simpl.
    destruct (parse_section s) as [c|]; rewrite IH; simpl.
    + rewrite <- app_assoc. reflexivity.
    + reflexivity.
Qed.




(** ** Claim results: counts *)

Lemma digit_in_bounds :
  forall (zs : list char) (c : char) (d : Z),
    digit_in zs c = Some d -> exists z, In z zs /\ (z <= c < z + 10)%N.
Proof.
  induction zs as [|z zs IH]; intros c d; simpl; [discriminate|].
  destruct ((z <=? c)%N && (c <? z + 10)%N) eqn:E.
  - intros _. exists z. apply andb_true_iff in E as [E1 E2].
    apply N.leb_le in E1. apply N.ltb_lt in E2. auto.
  - intros H. destruct (IH c d H) as (z' & Hz & Hb). exists z'. auto.
Qed.

Lemma digit_runs_not_space :
  forallb
    (fun z : char =>
       forallb (fun i : N => negb (isspace (z + i)%N))
               [0; 1; 2; 3; 4; 5; 6; 7; 8; 9]%N)
    digit_zeros = true.
Proof. vm_compute. reflexivity. Qed.

Lemma isdigit_not_space (c : char) : isdigit c = true -> isspace c = false.
Proof.
  unfold isdigit. destruct (digit_value c) as [d|] eqn:E; [|discriminate].
  intros _. apply digit_in_bounds in E as (z & Hz & Hb).
  pose proof digit_runs_not_space as F.
  rewrite forallb_forall in F. specialize (F z Hz).
  rewrite forallb_forall in F.
  assert (Hi : In (c - z)%N [0; 1; 2; 3; 4; 5; 6; 7; 8; 9]%N)
    by (simpl; lia).
  specialize (F _ Hi). replace (z + (c - z))%N with c in F by lia.
  apply negb_true_iff. exact F.
Qed.







(** ** Claim results: bold spans *)












(** The example of the specification with two headings, one without a
    price and one without a validity. *)
Example coupons_two_headings :
  parse_my_coupons two_coupons
  = [coupon_without_price; coupon_without_validity].
Proof. vm_compute. reflexivity. Qed.

(** ** Block 0 of the activity details *)

Lemma contains_false_startswith (l s : str) :
  contains l s = false -> startswith l s = false.
Proof.
  destruct s as [|a s]; simpl; intros H;
    apply orb_false_elim in H as [H _]; exact H.
Qed.

(** The label cannot start the stripped block when it is nowhere in the
    block: the branch that strips it is never taken. *)
Lemma label_strip_unreachable (block : str) :
  contains title_label block = false ->
  startswith title_label (strip block) = false.
Proof.
  intros H. apply contains_false_startswith, contains_strip. exact H.
Qed.

(** A first block without the label is dropped. *)
Lemma preamble_block_dropped (block : str) :
  contains title_label block = false -> parse_block 0 block = None.
Proof.
  intros H. unfold parse_block.
  destruct (negb (truthy (strip block))); [reflexivity|].
  cbn [Nat.eqb andb]. rewrite H. cbn [negb].
  rewrite (label_strip_unreachable block H). reflexivity.
Qed.

(** * Further properties of the code *)

(** ** The result of clean_text *)

Lemma settled_no_blank_lines :
  forall s : str, settled s = true -> search blank_lines s = None.
Proof.
  induction s as [|c r IH]; intros H.
  - apply search_nil. rewrite match_blank. reflexivity.
  - simpl in H. apply andb_true_iff in H as [H1 H2].
    rewrite search_nomatch.
    + rewrite (IH H2). reflexivity.
    + reflexivity.
    + rewrite match_blank. destruct (N.eqb c NL); [|reflexivity].
      destruct (blank_len r); [discriminate | reflexivity].
Qed.

Lemma clean_text_stripped (text : str) : strip (clean_text text) = clean_text text.
Proof.
  destruct text as [|c t]; [reflexivity|].
  rewrite clean_text_cons. apply strip_idem.
Qed.

(** X1: the result of [clean_text] holds no backslash followed by n, by a
    backslash or by a space, the blank-lines pattern finds nothing in it,
    and it has no blank at either end. *)
Theorem clean_text_normal_form :
  forall text : str,
    contains ESC_N (clean_text text) = false /\
    contains [BACKSLASH; BACKSLASH] (clean_text text) = false /\
    contains [BACKSLASH; SPACE] (clean_text text) = false /\
    search blank_lines (clean_text text) = None /\
    strip (clean_text text) = clean_text text.
Proof.
  intros text.
  split; [|split; [|split; [|split; [|apply clean_text_stripped]]]];
    (destruct text as [|c t]; [vm_compute; reflexivity|]);
    rewrite clean_text_cons;
    destruct (drop_double_backslash_clean _ (unescape_n_clean (c :: t)))
      as [A1 A2];
    destruct (unescape_space_clean _ A1 A2) as (B1 & B2 & B3).
  - rewrite ESC_N_eq in *.
    apply contains_strip, contains_join; [reflexivity | exact B1].
  - apply contains_strip, contains_join; [reflexivity | exact B2].
  - apply contains_strip, contains_join; [reflexivity | exact B3].
  - apply settled_no_blank_lines, settled_strip, settled_join.
Qed.

(** ** The claim result is always built *)



(** ** Activity records *)

Lemma truncated_bound (x : str) :
  List.length (if Nat.ltb 300 (List.length x)
               then firstn 300 x ++ U "..." else x) <= 303.
Proof.
  destruct (Nat.ltb_spec 300 (List.length x)); [|lia].
  rewrite length_app, length_firstn.
  change (List.length (U "...")) with 3. lia.
Qed.

Lemma parse_block_ok (i : nat) (block : str) (a : ActivityRecord) :
  parse_block i block = Some a -> activity_ok a.
Proof.
  unfold parse_block.
  destruct (negb (truthy (strip block))); [discriminate|].
  destruct (if Nat.eqb i 0 && negb (contains title_label block)
            then if startswith title_label (strip block)
                 then Some (skipn (List.length title_label) (strip block))
                 else None
            else Some block) as [b|]; [|discriminate].
  match goal with
  | |- (if truthy ?T then Some {| title := _; content := ?C; img := _ |}
        else None) = _ -> _ =>
      destruct (truthy T) eqn:Ht; [|discriminate];
      pose proof (clean_text_stripped
                    (group1_or b
                       match search title_after_colon b with
                       | Some m => Some m
                       | None => search title_first_line b
                       end strip [])) as Hstrip;
      pose proof (truncated_bound
                    (clean_text (group1_or b (search intro_pattern b) strip [])))
        as Hlen;
      intros H; injection H as <-; unfold activity_ok
  end.
  split; [apply truthy_true; exact Ht|].
  split; [exact Hstrip | exact Hlen].
Qed.

Lemma parse_blocks_ok :
  forall blocks i acc,
    Forall activity_ok acc -> Forall activity_ok (parse_blocks i blocks acc).
Proof.
  induction blocks as [|b l IH]; intros i acc Hacc; simpl; [exact Hacc|].
  destruct (parse_block i b) as [a|] eqn:E; apply IH; [|exact Hacc].
  apply Forall_app. split; [exact Hacc|].
  constructor; [|constructor]. apply (parse_block_ok i b a E).
Qed.

Lemma flat_titles_ok (text : str) (img_matches : list mobj) :
  forall title_matches idx acc,
    Forall activity_ok acc ->
    Forall activity_ok (flat_titles text img_matches idx title_matches acc).
Proof.
  induction title_matches as [|m l IH]; intros idx acc Hacc; simpl;
    [exact Hacc|].
  match goal with
  | |- Forall _ (if truthy ?T then _ else _) => destruct (truthy T) eqn:Ht
  end; apply IH; [|exact Hacc].
  apply Forall_app. split; [exact Hacc|].
  constructor; [|constructor]. unfold activity_ok; cbn [title content img].
  split; [apply truthy_true; exact Ht|].
  split; [apply clean_text_stripped | simpl; lia].
Qed.

(** X3: every record [parse_activity_details] returns, by either strategy,
    has a title that is not empty and has no blank at either end, and a
    content of at most 303 characters (300 and the ellipsis). *)
Theorem activity_records_titled_and_bounded :
  forall text : str, Forall activity_ok (parse_activity_details text).
Proof.
  intros text. unfold parse_activity_details.
  match goal with
  | |- Forall _ (match parse_blocks 0 ?B [] with _ => _ end) =>
      pose proof (parse_blocks_ok B 0 [] (Forall_nil _)) as H;
      destruct (parse_blocks 0 B []) as [|a l]
  end.
  - apply flat_titles_ok. constructor.
  - exact H.
Qed.

(** ** The calendar: headers and order *)

Lemma match_at_literal_none (l : str) (r : regex) (ma : bool) (i : nat) (s : str) :
  startswith l s = false -> match_at (Cat (Lit l) r) ma i s = None.
Proof.
  intros H. unfold match_at. cbn [rmatch]. rewrite rmatch_Lit.
  cbn [rest]. rewrite H. reflexivity.
Qed.

Lemma scan_literal_none (l : str) (r : regex) :
  forall (s : str) (i : nat),
    contains l s = false -> scan (Cat (Lit l) r) i s 0 = [].
Proof.
  induction s as [|c s IH]; intros i H.
  - cbn [scan]. rewrite match_at_literal_none; [reflexivity|].
    apply contains_false_startswith. exact H.
  - cbn [scan]. rewrite match_at_literal_none.
    + apply IH. rewrite contains_cons in H.
      apply orb_false_elim in H as [_ H]. exact H.
    + apply contains_false_startswith. exact H.
Qed.

(** X4: a text in which the heading marker [###] does not occur has no date
    header, and [parse_calendar_activities] returns the empty list for it
    whenever the reference date resolves. *)
Theorem calendar_without_headers_is_empty :
  forall now text server_date current_date,
    reference_date now server_date = Ok current_date ->
    contains (U "###") text = false ->
    parse_calendar_activities now text server_date = Ok [].
Proof.
  intros now text sd cur Href H. unfold parse_calendar_activities.
  destruct (negb (truthy text)); [reflexivity|].
  rewrite Href. cbn [bind]. unfold finditer.
  change date_pattern
    with (Cat (Lit (U "###"))
              (Opt (Chr (lit (ch "#"))) $$ Star true space
               $$ Opt (Grp 1 (Plus true digit) $$ Lit (U "年"))
               $$ Grp 2 (Plus true digit) $$ Lit (U "月")
               $$ Grp 3 (Plus true digit) $$ Lit (U "日"))).
  rewrite (scan_literal_none _ _ text 0 H). reflexivity.
Qed.

Lemma calendar_without_headers_is_empty_witness :
  parse_calendar_activities
    {| Datetime.year := 2026; Datetime.month := 1; Datetime.day := 17;
       hour := 9; minute := 30; second := 0; microsecond := 0 |}
    (U "## 2026年1月18日 - **活动标题**：午餐") None
  = Ok [].
Proof.
  apply (calendar_without_headers_is_empty
           {| Datetime.year := 2026; Datetime.month := 1; Datetime.day := 17;
              hour := 9; minute := 30; second := 0; microsecond := 0 |}
           (U "## 2026年1月18日 - **活动标题**：午餐") None
           {| Datetime.year := 2026; Datetime.month := 1; Datetime.day := 17;
              hour := 9; minute := 30; second := 0; microsecond := 0 |}).
  - reflexivity.
  - vm_compute. reflexivity.
Defined.

Section CalendarOrder.

Variables (text : str) (current_date : datetime) (matches : list mobj).

Lemma calendar_loop_order :
  forall todo i acc out,
    skipn i matches = todo ->
    calendar_loop text current_date matches i todo acc = Ok out ->
    exists idxs new,
      out = acc ++ new /\
      Forall2 (record_at text current_date matches) idxs new /\
      Forall (fun j => i <= j) idxs /\
      StronglySorted Nat.lt idxs.
Proof.
  induction todo as [|m todo IH]; intros i acc out Hsk Hrun; simpl in Hrun.
  - injection Hrun as <-. exists [], []. rewrite app_nil_r.
    repeat split; constructor.
  - destruct (skipn_cons_nth matches i m todo Hsk) as [Hnth Hsk'].
    assert (Hup : forall out' acc',
               calendar_loop text current_date matches (S i) todo acc' = Ok out' ->
               exists idxs new,
                 out' = acc' ++ new /\
                 Forall2 (record_at text current_date matches) idxs new /\
                 Forall (fun j => i <= j) idxs /\
                 StronglySorted Nat.lt idxs).
    { intros out' acc' H.
      destruct (IH (S i) acc' out' Hsk' H) as (idxs & new & E & F & G & Hsort).
      exists idxs, new. repeat split; auto.
      eapply Forall_impl; [|exact G]. intros j Hj; simpl in Hj. lia. }
    destruct (resolve text (Datetime.year current_date) m)
      as [[[y mo] dd]|e] eqn:Hres; simpl in Hrun; [|discriminate].
    destruct (negb (mo =? Datetime.month current_date)%Z
              || negb (y =? Datetime.year current_date)%Z).
    { apply Hup; exact Hrun. }
    destruct (Datetime.mk y mo dd) as [ad|e] eqn:Hmk; simpl in Hrun;
      [|discriminate].
    destruct (Datetime.lt ad (midnight current_date)).
    { apply Hup; exact Hrun. }
    fold (day_content text matches i m) in Hrun.
    destruct (parse_activity_details (day_content text matches i m))
      as [|a l] eqn:Hdet.
    { apply Hup; exact Hrun. }
    destruct (IH (S i) _ out Hsk' Hrun) as (idxs & new & E & F & G & Hsort).
    exists (i :: idxs),
      ({| date := fmt_date y mo dd;
          count := Z.of_nat (List.length (a :: l));
          activities := a :: l |} :: new).
    split; [rewrite E, <- app_assoc; reflexivity|].
    split.
    + constructor; [|exact F].
      exists m, y, mo, dd. cbn [date activities].
      rewrite Hdet. repeat split; auto.
    + split.
      * constructor; [lia|]. eapply Forall_impl; [|exact G].
        intros j Hj; simpl in Hj. lia.
      * constructor; [exact Hsort|].
        eapply Forall_impl; [|exact G]. intros j Hj; simpl in Hj. lia.
Qed.

End CalendarOrder.

(** X5: the records [parse_calendar_activities] returns follow the order of
    the headers in the text: they are the records of headers of strictly
    increasing index, one header each, so two headers of one date give two
    records. *)
Theorem calendar_records_in_header_order :
  forall now text server_date current_date acts,
    reference_date now server_date = Ok current_date ->
    parse_calendar_activities now text server_date = Ok acts ->
    exists idxs,
      Forall2 (record_at text current_date (finditer date_pattern text))
              idxs acts /\
      StronglySorted Nat.lt idxs.
Proof.
  intros now text sd cur acts Href. unfold parse_calendar_activities.
  destruct (negb (truthy text)).
  { intros H; injection H as <-. exists []. split; constructor. }
  rewrite Href. cbn [bind]. intros H.
  destruct (calendar_loop_order text cur (finditer date_pattern text)
              (finditer date_pattern text) 0 [] acts eq_refl H)
    as (idxs & new & E & F & _ & Hsort).
  exists idxs. simpl in E. subst new. split; assumption.
Qed.

Lemma calendar_records_in_header_order_witness :
  exists idxs,
    Forall2 (record_at two_days morning_17 (finditer date_pattern two_days))
            idxs [lunch_18] /\
    StronglySorted Nat.lt idxs.
Proof.
  apply (calendar_records_in_header_order morning_17 two_days None
           morning_17 [lunch_18]).
  - reflexivity.
  - vm_compute. reflexivity.
Defined.

(** ** Activity dates and today's record *)

Lemma strftime_truthy (t : datetime) : truthy (strftime_ymd t) = true.
Proof.
  unfold strftime_ymd.
  destruct (repeat (ch "0") (4 - List.length (fmt_d (Datetime.year t))))
    as [|c l]; [|reflexivity].
  destruct (fmt_d (Datetime.year t)); reflexivity.
Qed.

Lemma in_activity_dates (today : str) (calendar_data : list dict) :
  truthy today = true ->
  (In (JStr today) (get_activity_dates calendar_data) <->
   exists d, In d calendar_data /\ dict_get d (U "date") = JStr today).
Proof.
  intros Ht. unfold get_activity_dates. rewrite in_flat_map. split.
  - intros (d & Hd & Hin). exists d. split; [exact Hd|].
    destruct (truthy_json (dict_get d (U "date"))); [|destruct Hin].
    destruct Hin as [H|[]]. exact H.
  - intros (d & Hd & Hdate). exists d. split; [exact Hd|].
    rewrite Hdate. cbn [truthy_json]. rewrite Ht. left. reflexivity.
Qed.

(** X6: [get_today_activities] finds a record exactly when today's date is
    among the dates [get_activity_dates] lists. *)
Theorem today_found_iff_date_listed :
  forall now calendar_data,
    get_today_activities now calendar_data <> None <->
    In (JStr (strftime_ymd now)) (get_activity_dates calendar_data).
Proof.
  intros now data.
  rewrite (in_activity_dates _ data (strftime_truthy now)).
  unfold get_today_activities.
  pose proof (today_loop_first (strftime_ymd now) data) as H.
  destruct (today_loop (strftime_ymd now) data) as [d|].
  - destruct H as (before & after & -> & Hdate & _).
    split; [|discriminate]. intros _. exists d. split; [|exact Hdate].
    apply in_or_app. right. left. reflexivity.
  - split; [congruence|]. intros (d & Hd & Hdate).
    rewrite Forall_forall in H. destruct (H d Hd Hdate).
Qed.

(** ** html_escape *)

Lemma replace1_flat_map (c : char) (new : str) :
  forall s : str,
    replace [c] new s = flat_map (fun x => if N.eqb c x then new else [x]) s.
Proof.
  unfold replace. induction s as [|x s IH]; [reflexivity|].
  cbn [replace_from flat_map startswith List.length Nat.sub].
  rewrite andb_true_r. destruct (N.eqb c x); rewrite IH; reflexivity.
Qed.

Lemma flat_map_nested {A B C} (f : A -> list B) (g : B -> list C) :
  forall l : list A,
    flat_map g (flat_map f l) = flat_map (fun x => flat_map g (f x)) l.
Proof.
  induction l as [|x l IH]; simpl; [reflexivity|].
  rewrite flat_map_app, IH. reflexivity.
Qed.

Lemma escape_steps (x : char) :
  flat_map
    (fun x0 : char =>
       flat_map
         (fun x1 : char =>
            flat_map (fun x2 : char => if N.eqb QUOTE x2 then U "&quot;" else [x2])
                     (if N.eqb (ch ">") x1 then U "&gt;" else [x1]))
         (if N.eqb (ch "<") x0 then U "&lt;" else [x0]))
    (if N.eqb (ch "&") x then U "&amp;" else [x])
  = escape_char x.
Proof.
  unfold escape_char.
  rewrite (N.eqb_sym x (ch "&")), (N.eqb_sym x (ch "<")),
    (N.eqb_sym x (ch ">")), (N.eqb_sym x QUOTE).
  destruct (N.eqb (ch "&") x) eqn:E1; [reflexivity|].
  cbn [flat_map app].
  destruct (N.eqb (ch "<") x) eqn:E2; [reflexivity|].
  cbn [flat_map app].
  destruct (N.eqb (ch ">") x) eqn:E3; [reflexivity|].
  cbn [flat_map app].
  destruct (N.eqb QUOTE x) eqn:E4; reflexivity.
Qed.

Lemma html_escape_chars (text : str) :
  html_escape text = flat_map escape_char text.
Proof.
  unfold html_escape.
  destruct text as [|c t]; [reflexivity|]. cbn [truthy negb].
  rewrite !replace1_flat_map, !flat_map_nested.
  apply flat_map_ext. intros x. apply escape_steps.
Qed.

(** X7: the four replacements of [html_escape] amount to one pass that
    writes each character's escape: the ampersands of the entities written
    for the other three characters are not escaped again. *)
Theorem html_escape_per_character :
  forall text : str, html_escape text = flat_map escape_char text.
Proof. exact html_escape_chars. Qed.

Lemma escape_char_safe (c : char) :
  Forall (fun x => x <> ch "<" /\ x <> ch ">" /\ x <> QUOTE) (escape_char c).
Proof.
  unfold escape_char.
  destruct (N.eqb_spec c (ch "&"));
    [repeat constructor; discriminate|].
  destruct (N.eqb_spec c (ch "<"));
    [repeat constructor; discriminate|].
  destruct (N.eqb_spec c (ch ">"));
    [repeat constructor; discriminate|].
  destruct (N.eqb_spec c QUOTE);
    [repeat constructor; discriminate|].
  repeat constructor; assumption.
Qed.

(** X8: the result of [html_escape] holds no [<], no [>] and no double
    quote. *)
Theorem html_escape_no_markup :
  forall text : str,
    Forall (fun x => x <> ch "<" /\ x <> ch ">" /\ x <> QUOTE)
           (html_escape text).
Proof.
  intros text. rewrite html_escape_chars.
  induction text as [|c t IH]; simpl; [constructor|].
  apply Forall_app. split; [apply escape_char_safe | exact IH].
Qed.

Lemma escape_char_cases (x : char) :
  (x = ch "&" /\ escape_char x = U "&amp;") \/
  (x = ch "<" /\ escape_char x = U "&lt;") \/
  (x = ch ">" /\ escape_char x = U "&gt;") \/
  (x = QUOTE /\ escape_char x = U "&quot;") \/
  (x <> ch "&" /\ escape_char x = [x]).
Proof.
  unfold escape_char.
  destruct (N.eqb_spec x (ch "&")); [left; auto|].
  destruct (N.eqb_spec x (ch "<")); [right; left; auto|].
  destruct (N.eqb_spec x (ch ">")); [right; right; left; auto|].
  destruct (N.eqb_spec x QUOTE); [right; right; right; left; auto|].
  right; right; right; right; auto.
Qed.

Lemma escape_char_app_inj (x y : char) (A B : str) :
  escape_char x ++ A = escape_char y ++ B -> x = y /\ A = B.
Proof.
  intros H.
  destruct (escape_char_cases x) as [[-> Ex]|[[-> Ex]|[[-> Ex]|[[-> Ex]|[Nx Ex]]]]];
  destruct (escape_char_cases y) as [[-> Ey]|[[-> Ey]|[[-> Ey]|[[-> Ey]|[Ny Ey]]]]];
    rewrite ?Ex, ?Ey in H; vm_compute in H;
    try discriminate;
    inversion H; subst;
    first [ split; reflexivity
          | exfalso; apply Nx; reflexivity
          | exfalso; apply Ny; reflexivity ].
Qed.

Lemma html_escape_inj_chars :
  forall a b : str,
    flat_map escape_char a = flat_map escape_char b -> a = b.
Proof.
  induction a as [|x a IH]; intros [|y b] H; simpl in H.
  - reflexivity.
  - destruct (escape_char_cases y) as [[_ E]|[[_ E]|[[_ E]|[[_ E]|[_ E]]]]];
      rewrite E in H; discriminate.
  - destruct (escape_char_cases x) as [[_ E]|[[_ E]|[[_ E]|[[_ E]|[_ E]]]]];
      rewrite E in H; discriminate.
  - destruct (escape_char_app_inj x y _ _ H) as [-> H'].
    rewrite (IH b H'). reflexivity.
Qed.

(** X9: [html_escape] loses nothing: two texts with the same escaped form
    are equal. *)
Theorem html_escape_injective :
  forall a b : str, html_escape a = html_escape b -> a = b.
Proof.
  intros a b. rewrite !html_escape_chars. apply html_escape_inj_chars.
Qed.

Lemma html_escape_injective_witness : U "a<b&c" = U "a<b&c".
Proof.
  apply (html_escape_injective (U "a<b&c") (U "a<b&c")). reflexivity.
Defined.

(** ** clean_display_text *)

Lemma blanks_bol_free : bol_free blanks = true.
Proof. reflexivity. Qed.

Lemma match_blanks (s : str) :
  match_at blanks false 0 s
  = match s with
    | c :: r =>
        if isspace c then Some (MObj 0 (1 + span space r) []) else None
    | [] => None
    end.
Proof.
  unfold match_at, blanks, Plus. cbn [rmatch rest pos caps].
  destruct s as [|c r]; [reflexivity|].
  unfold space at 1. destruct (isspace c); [|reflexivity].
  erewrite star_greedy_max by reflexivity. reflexivity.
Qed.

Lemma collapse_nil : collapse_blanks [] = [].
Proof. apply sub_nil. rewrite match_blanks. reflexivity. Qed.

Lemma collapse_other (c : char) (r : str) :
  isspace c = false -> collapse_blanks (c :: r) = c :: collapse_blanks r.
Proof.
  intros H. apply sub_nomatch; [reflexivity|].
  rewrite match_blanks, H. reflexivity.
Qed.

Lemma takewhile_dropwhile (p : char -> bool) :
  forall s : str, takewhile p s ++ dropwhile p s = s.
Proof.
  induction s as [|c s IH]; simpl; [reflexivity|].
  destruct (p c); simpl; [rewrite IH|]; reflexivity.
Qed.

Lemma takewhile_length (p : char -> bool) :
  forall s : str, List.length (takewhile p s) = span p s.
Proof.
  induction s as [|c s IH]; simpl; [reflexivity|].
  destruct (p c); simpl; [rewrite IH|]; reflexivity.
Qed.

Lemma collapse_blank (c : char) (r : str) :
  isspace c = true ->
  collapse_blanks (c :: r) = SPACE :: collapse_blanks (dropwhile space r).
Proof.
  intros H. rewrite <- (takewhile_dropwhile space r) at 1.
  change (c :: takewhile space r ++ dropwhile space r)
    with ((c :: takewhile space r) ++ dropwhile space r).
  unfold collapse_blanks.
  rewrite sub_match with (m := MObj 0 (1 + span space r) []).
  - reflexivity.
  - reflexivity.
  - rewrite match_blanks. cbn [app]. rewrite H, takewhile_dropwhile.
    reflexivity.
  - cbn [m_end List.length]. rewrite takewhile_length. reflexivity.
  - discriminate.
Qed.

Lemma dropwhile_length (p : char -> bool) :
  forall s : str, List.length (dropwhile p s) <= List.length s.
Proof.
  induction s as [|c s IH]; simpl; [lia|]. destruct (p c); simpl; lia.
Qed.

Lemma dropwhile_head (p : char -> bool) :
  forall (s : str) (c : char) (r : str),
    dropwhile p s = c :: r -> p c = false.
Proof.
  induction s as [|x s IH]; intros c r; simpl; [discriminate|].
  destruct (p x) eqn:E; [apply IH|].
  intros H; injection H as <- _. exact E.
Qed.

Lemma spaced_collapse : forall s : str, spaced (collapse_blanks s) = true.
Proof.
  induction s as [s IH] using str_length_ind.
  destruct s as [|c r]; [rewrite collapse_nil; reflexivity|].
  destruct (isspace c) eqn:Hc.
  - rewrite (collapse_blank c r Hc). cbn [spaced].
    change (isspace SPACE) with true. cbn [N.eqb andb].
    rewrite N.eqb_refl.
    rewrite IH by (pose proof (dropwhile_length space r); simpl; lia).
    rewrite andb_true_r. cbn [andb].
    destruct (dropwhile space r) as [|c' r'] eqn:E;
      [rewrite collapse_nil; reflexivity|].
    pose proof (dropwhile_head space r c' r' E) as Hc'. unfold space in Hc'.
    rewrite (collapse_other c' r' Hc'), Hc'. reflexivity.
  - rewrite (collapse_other c r Hc). cbn [spaced]. rewrite Hc.
    apply IH. simpl. lia.
Qed.

Lemma spaced_suffix : forall w s : str, spaced (w ++ s) = true -> spaced s = true.
Proof.
  induction w as [|c w IH]; intros s H; [exact H|].
  simpl in H. apply andb_true_iff in H as [_ H]. apply IH; exact H.
Qed.

Lemma spaced_prefix : forall s w : str, spaced (s ++ w) = true -> spaced s = true.
Proof.
  induction s as [|c s IH]; intros w H; [reflexivity|].
  simpl in H. apply andb_true_iff in H as [H1 H2].
  cbn [spaced]. rewrite (IH w H2), andb_true_r.
  destruct (isspace c); [|reflexivity].
  apply andb_true_iff in H1 as [H1 H3]. rewrite H1. cbn [andb].
  destruct s as [|c' s']; [reflexivity | exact H3].
Qed.

Lemma spaced_strip (s : str) : spaced s = true -> spaced (strip s) = true.
Proof.
  intros H. destruct (strip_middle s) as (w1 & w2 & Hs).
  rewrite Hs in H. apply spaced_suffix in H. apply spaced_prefix in H.
  exact H.
Qed.

Lemma spaced_plain : forall s : str,
  spaced s = true -> Forall (fun c => isspace c = true -> c = SPACE) s.
Proof.
  induction s as [|c s IH]; intros H; [constructor|].
  simpl in H. apply andb_true_iff in H as [H1 H2].
  constructor; [|apply IH; exact H2].
  intros Hc. rewrite Hc in H1. apply andb_true_iff in H1 as [H1 _].
  apply N.eqb_eq. exact H1.
Qed.

Lemma spaced_no_double : forall s : str,
  spaced s = true -> contains [SPACE; SPACE] s = false.
Proof.
  induction s as [|c s IH]; intros H; [reflexivity|].
  simpl in H. apply andb_true_iff in H as [H1 H2].
  rewrite contains_cons, (IH H2), orb_false_r, startswith2_cons.
  destruct (N.eqb_spec SPACE c) as [<-|]; [|reflexivity].
  change (isspace SPACE) with true in H1.
  apply andb_true_iff in H1 as [_ H1].
  destruct s as [|c' s']; [reflexivity|].
  destruct (N.eqb_spec SPACE c') as [<-|]; [discriminate H1 | reflexivity].
Qed.

Lemma clean_display_text_strip (text : str) :
  exists t : str, clean_display_text text = strip (collapse_blanks t).
Proof.
  unfold clean_display_text. destruct (negb (truthy text)).
  - exists []. rewrite collapse_nil. reflexivity.
  - eexists. reflexivity.
Qed.

(** X10: in the result of [clean_display_text] every blank is a plain
    space, no two spaces are adjacent, and there is no blank at either end:
    line breaks and tabs are gone and runs of blanks are single spaces. *)
Theorem display_text_single_spaced :
  forall text : str,
    Forall (fun c => isspace c = true -> c = SPACE) (clean_display_text text) /\
    contains [SPACE; SPACE] (clean_display_text text) = false /\
    strip (clean_display_text text) = clean_display_text text.
Proof.
  intros text. destruct (clean_display_text_strip text) as [t ->].
  pose proof (spaced_strip _ (spaced_collapse t)) as H.
  split; [apply spaced_plain; exact H|].
  split; [apply spaced_no_double; exact H | apply strip_idem].
Qed.

(** ** What a pattern takes *)

Lemma star_greedy_takes (p : char -> bool) (k : cont) cs :
  forall (s : str) (i : nat) (res : mstate),
    star_greedy p k cs i s = Some res ->
    exists w t,
      s = w ++ t /\ Forall (fun c => p c = true) w /\
      k (MState (i + List.length w) t cs) = Some res.
Proof.
  induction s as [|c s IH]; intros i res; simpl.
  - intros H. exists [], []. rewrite Nat.add_0_r. repeat split; auto.
  - destruct (p c) eqn:Hc.
    + destruct (star_greedy p k cs (S i) s) as [st|] eqn:E.
      * intros H; injection H as <-.
        destruct (IH (S i) st E) as (w & t & -> & Hw & Hk).
        exists (c :: w), t. simpl. rewrite Nat.add_succ_r.
        repeat split; auto.
      * intros H. exists [], (c :: s). rewrite Nat.add_0_r.
        repeat split; auto.
    + intros H. exists [], (c :: s). rewrite Nat.add_0_r. repeat split; auto.
Qed.

Lemma star_lazy_takes (p : char -> bool) (k : cont) cs :
  forall (s : str) (i : nat) (res : mstate),
    star_lazy p k cs i s = Some res ->
    exists w t,
      s = w ++ t /\ Forall (fun c => p c = true) w /\
      k (MState (i + List.length w) t cs) = Some res.
Proof.
  induction s as [|c s IH]; intros i res; simpl.
  - destruct (k (MState i [] cs)) eqn:E; [|discriminate].
    intros H; injection H as <-. exists [], []. rewrite Nat.add_0_r.
    repeat split; auto.
  - destruct (k (MState i (c :: s) cs)) eqn:E.
    + intros H; injection H as <-. exists [], (c :: s).
      rewrite Nat.add_0_r. repeat split; auto.
    + destruct (p c) eqn:Hc; [|discriminate]. intros H.
      destruct (IH (S i) res H) as (w & t & -> & Hw & Hk).
      exists (c :: w), t. simpl. rewrite Nat.add_succ_r. repeat split; auto.
Qed.

(** The matcher is sound for the language: when a pattern without groups
    succeeds, the text splits into a part of the pattern's language and the
    rest, on which the continuation succeeded, with the groups unchanged. *)
Lemma rmatch_takes (r : regex) :
  plain r = true ->
  forall (k : cont) (st res : mstate),
    rmatch r k st = Some res ->
    exists w t,
      rest st = w ++ t /\ lang r w /\
      k (MState (pos st + List.length w) t (caps st)) = Some res.
Proof.
  induction r; intros Hp k st res H; simpl in Hp, H;
    try (apply andb_true_iff in Hp as [Hp1 Hp2]); try discriminate.
  - exists [], (rest st). destruct st as [i s cs]. simpl.
    rewrite Nat.add_0_r. auto.
  - destruct (rest st) as [|c s'] eqn:Hr; [discriminate|].
    destruct (p c) eqn:Hc; [|discriminate].
    exists [c], s'. simpl. rewrite Nat.add_1_r.
    repeat split; auto. exists c. auto.
  - destruct (IHr1 Hp1 _ _ _ H) as (w1 & t1 & E1 & L1 & K1).
    destruct (IHr2 Hp2 _ _ _ K1) as (w2 & t2 & E2 & L2 & K2).
    simpl in E2, K2. exists (w1 ++ w2), t2.
    rewrite E1, E2, <- app_assoc, length_app, Nat.add_assoc.
    repeat split; auto. exists w1, w2. auto.
  - destruct (rmatch r1 k st) as [st'|] eqn:E.
    + injection H as <-. destruct (IHr1 Hp1 _ _ _ E) as (w & t & E1 & L & K).
      exists w, t. simpl. auto.
    + destruct (IHr2 Hp2 _ _ _ H) as (w & t & E1 & L & K).
      exists w, t. simpl. auto.
  - destruct greedy.
    + destruct (star_greedy_takes _ _ _ _ _ _ H) as (w & t & E & F & K).
      exists w, t. auto.
    + destruct (star_lazy_takes _ _ _ _ _ _ H) as (w & t & E & F & K).
      exists w, t. auto.
  - destruct (rmatch r k st) as [st'|] eqn:E.
    + injection H as <-. destruct (IHr Hp _ _ _ E) as (w & t & E1 & L & K).
      exists w, t. simpl. auto.
    + exists [], (rest st). destruct st as [i s cs]. simpl in *.
      rewrite Nat.add_0_r. auto.
  - destruct (Nat.eqb (pos st) 0); [|discriminate].
    exists [], (rest st). destruct st as [i s cs]. simpl in *.
    rewrite Nat.add_0_r. auto.
  - exists [], (rest st). destruct st as [i s cs]. simpl in *.
    rewrite Nat.add_0_r.
    destruct s as [|c [|c' s']]; auto; try discriminate.
    destruct (N.eqb c NL); [auto | discriminate].
Qed.

(** A group around such a pattern records the part it took. *)
Lemma rmatch_group_takes (n : nat) (r : regex) :
  plain r = true ->
  forall (k : cont) (st res : mstate),
    rmatch (Grp n r) k st = Some res ->
    exists w t,
      rest st = w ++ t /\ lang r w /\
      k (MState (pos st + List.length w) t
                ((n, (pos st, pos st + List.length w)) :: caps st))
      = Some res.
Proof.
  intros Hp k st res H. cbn [rmatch] in H.
  destruct (rmatch_takes r Hp _ _ _ H) as (w & t & E & L & K).
  exists w, t. auto.
Qed.

(** A property of a group of the first match follows from the property at
    an attempt at the start of any text. *)
Lemma search_group_prop (r : regex) (n : nat) (Q : option str -> Prop) :
  bol_free r = true ->
  (forall s m, match_at r false 0 s = Some m -> Q (group s m n)) ->
  forall text m, search r text = Some m -> Q (group text m n).
Proof.
  intros Hb HQ. induction text as [|c t IH]; intros m H.
  - apply HQ. unfold search in H. simpl in H.
    destruct (match_at r false 0 []); [exact H | discriminate].
  - destruct (match_at r false 0 (c :: t)) as [m'|] eqn:E.
    + rewrite (search_match r (c :: t) m' E) in H. injection H as <-.
      apply HQ. exact E.
    + rewrite (search_nomatch r Hb c t E) in H.
      destruct (search r t) as [m0|]; [|discriminate].
      injection H as <-.
      replace (group (c :: t) (shift_mobj 1 m0) n) with (group t m0 n)
        by (symmetry; apply (group_shift [c] t m0 n)).
      apply IH. reflexivity.
Qed.

Lemma slice_middle (a w t : str) :
  slice (a ++ w ++ t) (List.length a) (List.length a + List.length w) = w.
Proof.
  unfold slice. rewrite skipn_length_app.
  replace (List.length a + List.length w - List.length a) with (List.length w)
    by lia.
  rewrite firstn_app, Nat.sub_diag, firstn_all. cbn [firstn].
  apply app_nil_r.
Qed.

(** ** Coupon prices *)

Lemma lang_plus (g : bool) (p : char -> bool) (w : str) :
  lang (Plus g p) w -> w <> [] /\ Forall (fun c => p c = true) w.
Proof.
  intros (a & b & -> & (c & -> & Hc) & Hb). split; [discriminate|].
  constructor; assumption.
Qed.

Lemma lang_price_body (w : str) :
  lang (Plus true digit $$ Opt (Chr (lit (ch ".")) $$ Plus true digit)) w ->
  decimal w.
Proof.
  intros (w1 & w2 & -> & H1 & H2).
  apply lang_plus in H1. destruct H2 as [->|(a & b & -> & (c & -> & Hc) & Hb)].
  - left. rewrite app_nil_r. exact H1.
  - right. apply lang_plus in Hb. unfold lit in Hc. apply N.eqb_eq in Hc.
    subst c. exists w1, b. auto.
Qed.

Lemma final_false (i : nat) (st : mstate) : final false i st = Some st.
Proof. reflexivity. Qed.

Lemma price_match (s : str) (m : mobj) :
  match_at price_pattern false 0 s = Some m ->
  exists g, group s m 1 = Some g /\ decimal g.
Proof.
  unfold match_at.
  destruct (rmatch price_pattern (final false 0) (MState 0 s [])) as [st|] eqn:E;
    [|discriminate].
  intros H; injection H as <-.
  change (rmatch price_pattern (final false 0) (MState 0 s []))
    with (rmatch
            (Cat (Lit (U "**优惠**"))
               (Cat (Chr colon)
                  (Cat (Star true space) (Opt (Chr (lit 0xA5%N))))))
            (rmatch
               (Grp 1 (Plus true digit
                       $$ Opt (Chr (lit (ch ".")) $$ Plus true digit)))
               (final false 0))
            (MState 0 s [])) in E.
  apply rmatch_takes in E; [|reflexivity].
  destruct E as (w0 & t0 & E0 & _ & E). cbn [rest pos caps] in E0, E.
  apply rmatch_group_takes in E; [|reflexivity].
  destruct E as (w & t & E1 & L & E). cbn [rest pos caps] in E1, E.
  rewrite final_false in E. injection E as <-.
  exists w. split; [|apply lang_price_body; exact L].
  unfold group. cbn [m_caps caps span_of Nat.eqb]. f_equal.
  subst s t0. apply slice_middle.
Qed.

Lemma digit_no_blank (w : str) :
  Forall (fun c => isdigit c = true) w -> Forall (fun c => isspace c = false) w.
Proof.
  intros H. eapply Forall_impl; [|exact H]. apply isdigit_not_space.
Qed.

Lemma decimal_no_blank (w : str) :
  decimal w -> Forall (fun c => isspace c = false) w.
Proof.
  intros [[_ H]|(a & b & -> & [_ Ha] & [_ Hb])].
  - apply digit_no_blank; exact H.
  - apply Forall_app. split; [apply digit_no_blank; exact Ha|].
    constructor; [reflexivity | apply digit_no_blank; exact Hb].
Qed.

Lemma lstrip_no_blank (w : str) :
  Forall (fun c => isspace c = false) w -> lstrip w = w.
Proof.
  intros H. apply lstrip_id. destruct H; simpl; auto.
Qed.

Lemma strip_no_blank (w : str) :
  Forall (fun c => isspace c = false) w -> strip w = w.
Proof.
  intros H. unfold strip, rstrip. rewrite (lstrip_no_blank w H).
  rewrite lstrip_no_blank by (apply Forall_rev; exact H).
  apply rev_involutive.
Qed.

Lemma parse_section_price (section : str) (c : CouponRecord) :
  parse_section section = Some c -> decimal (c_price c).
Proof.
  unfold parse_section.
  destruct (negb (truthy (strip section))); [discriminate|].
  destruct (search heading_pattern section); [|discriminate].
  intros H; injection H as <-. cbn [c_price].
  destruct (search price_pattern section) as [pm|] eqn:E.
  - pose proof (search_group_prop price_pattern 1
                  (fun og => exists g, og = Some g /\ decimal g)
                  eq_refl price_match section pm E) as (g & Hg & Hd).
    unfold group1_or. rewrite Hg.
    rewrite (strip_no_blank g (decimal_no_blank g Hd)). exact Hd.
  - left. split; [discriminate|]. repeat constructor.
Qed.

(** X11: the price of every record [parse_my_coupons] returns is a decimal
    number in text form: digits, or digits, a dot and digits (the default
    is [0]). *)
Theorem coupon_prices_are_decimal :
  forall text : str,
    Forall (fun c => decimal (c_price c)) (parse_my_coupons text).
Proof.
  intros text. unfold parse_my_coupons.
  destruct (negb (truthy text)); [constructor|].
  rewrite parse_sections_records. cbn [app]. unfold section_records.
  apply Forall_forall. intros c Hc.
  apply in_flat_map in Hc as (section & _ & Hc).
  destruct (parse_section section) as [c'|] eqn:E; [|destruct Hc].
  destruct Hc as [<-|[]]. apply (parse_section_price section c' E).
Qed.

(** ** Short validity *)

Lemma lang_times (n : nat) (p : char -> bool) :
  forall w : str, lang (Times n p) w -> List.length w = n.
Proof.
  induction n as [|n IH]; intros w; simpl.
  - intros ->. reflexivity.
  - intros (a & b & -> & (c & -> & _) & Hb). simpl. rewrite (IH b Hb).
    reflexivity.
Qed.

Lemma lang_date10 (w : str) : lang date10 w -> List.length w = 10.
Proof.
  intros (w1 & r1 & -> & H1 & (w2 & r2 & -> & (c2 & -> & _)
          & (w3 & r3 & -> & H3 & (w4 & w5 & -> & (c4 & -> & _) & H5)))).
  rewrite !length_app.
  rewrite (lang_times 4 digit w1 H1), (lang_times 2 digit w3 H3),
    (lang_times 2 digit w5 H5).
  reflexivity.
Qed.

Lemma range_match (s : str) (m : mobj) :
  match_at date_range_pattern false 0 s = Some m ->
  exists g1 g2,
    group s m 1 = Some g1 /\ group s m 2 = Some g2 /\
    List.length g1 = 10 /\ List.length g2 = 10.
Proof.
  unfold match_at.
  destruct (rmatch date_range_pattern (final false 0) (MState 0 s []))
    as [st|] eqn:E; [|discriminate].
  intros H; injection H as <-.
  change (rmatch date_range_pattern (final false 0) (MState 0 s []))
    with (rmatch (Grp 1 date10)
            (rmatch
               (Cat (Star true space)
                  (Cat (Star true (oneof [digit; lit (ch ":")]))
                     (Cat (Star true space)
                        (Cat (Chr (lit (ch "-"))) (Star true space)))))
               (rmatch (Grp 2 date10) (final false 0)))
            (MState 0 s [])) in E.
  apply rmatch_group_takes in E; [|reflexivity].
  destruct E as (w1 & t1 & E1 & L1 & E). cbn [rest pos caps] in E1, E.
  apply rmatch_takes in E; [|reflexivity].
  destruct E as (wm & t2 & E2 & _ & E). cbn [rest pos caps] in E2, E.
  apply rmatch_group_takes in E; [|reflexivity].
  destruct E as (w2 & t3 & E3 & L2 & E). cbn [rest pos caps] in E3, E.
  rewrite final_false in E. injection E as <-.
  exists w1, w2. unfold group. cbn [m_caps caps span_of Nat.eqb].
  split; [|split; [|split; apply lang_date10; assumption]].
  - f_equal. subst s. apply (slice_middle [] w1 t1).
  - f_equal. subst s t1 t2. rewrite <- length_app, app_assoc.
    apply slice_middle.
Qed.

(** X12: [parse_validity_short] returns a text for every validity (the
    group lookups never meet a missing group), never empty and of at most
    20 characters. *)
Theorem validity_short_bounded :
  forall validity : str,
    exists r,
      parse_validity_short validity = Ok r /\
      r <> [] /\ List.length r <= 20.
Proof.
  intros validity. unfold parse_validity_short.
  destruct (negb (truthy validity) || str_eqb validity unknown_validity) eqn:E0.
  { eexists. split; [reflexivity|]. split; [discriminate|].
    vm_compute. repeat constructor. }
  apply orb_false_elim in E0 as [Ht _]. apply negb_false_iff in Ht.
  destruct (search date_range_pattern validity) as [m|] eqn:E.
  - pose proof (search_group_prop date_range_pattern 1
                  (fun og => exists g, og = Some g /\ List.length g = 10)
                  eq_refl) as P1.
    pose proof (search_group_prop date_range_pattern 2
                  (fun og => exists g, og = Some g /\ List.length g = 10)
                  eq_refl) as P2.
    destruct (P1 (fun s m' H =>
                    match range_match s m' H with
                    | ex_intro _ g1 (ex_intro _ g2 (conj A (conj _ (conj C _)))) =>
                        ex_intro _ g1 (conj A C)
                    end) validity m E) as (g1 & G1 & N1).
    destruct (P2 (fun s m' H =>
                    match range_match s m' H with
                    | ex_intro _ g1 (ex_intro _ g2 (conj _ (conj B (conj _ D)))) =>
                        ex_intro _ g2 (conj B D)
                    end) validity m E) as (g2 & G2 & N2).
    unfold group_from5. rewrite G1, G2. cbn [bind].
    eexists. split; [reflexivity|].
    rewrite !length_app, !length_skipn, N1, N2.
    split; [|vm_compute; repeat constructor].
    destruct g1 as [|a [|b [|c [|d [|e [|f g1]]]]]]; simpl in N1; try lia.
    discriminate.
  - eexists. split; [reflexivity|].
    destruct (Nat.ltb_spec 20 (List.length validity)).
    + split.
      * destruct validity; [discriminate Ht | discriminate].
      * rewrite length_firstn. lia.
    + split; [apply truthy_true; exact Ht | exact H].
Qed.

(** ** Dates written and read back *)

Lemma all_from_spec (f : Z -> bool) :
  forall (n : nat) (z : Z),
    all_from n z f = true ->
    forall x, (z <= x < z + Z.of_nat n)%Z -> f x = true.
Proof.
  induction n as [|n IH]; intros z H x Hx; [lia|].
  cbn [all_from] in H. apply andb_true_iff in H as [H1 H2].
  destruct (Z.eq_dec x z) as [->|Hne]; [exact H1|].
  apply (IH (z + 1)%Z H2). lia.
Qed.

Lemma years_checked : all_from (Z.to_nat 9000) 1000 year_ok = true.
Proof. vm_compute. reflexivity. Qed.

Lemma month_days_checked :
  all_from 12 1 (fun m => all_from 31 1 (fun d => month_day_ok m d)) = true.
Proof. vm_compute. reflexivity. Qed.

Lemma year_digits (y : Z) :
  (1000 <= y <= 9999)%Z ->
  exists c1 c2 c3 c4,
    fmt_d y = [c1; c2; c3; c4] /\
    isdigit c1 = true /\ isdigit c2 = true /\
    isdigit c3 = true /\ isdigit c4 = true /\
    int [c1; c2; c3; c4] = y.
Proof.
  intros Hy.
  pose proof (all_from_spec year_ok _ _ years_checked y) as H.
  assert (Hok : year_ok y = true) by (apply H; lia). clear H.
  unfold year_ok in Hok.
  destruct (fmt_d y) as [|c1 [|c2 [|c3 [|c4 [|c5 l]]]]]; try discriminate.
  repeat (apply andb_true_iff in Hok as [Hok ?]).
  exists c1, c2, c3, c4. repeat split; auto. apply Z.eqb_eq. assumption.
Qed.

Lemma mk_ok (y m d : Z) (t : datetime) :
  Datetime.mk y m d = Ok t ->
  t = {| Datetime.year := y; Datetime.month := m; Datetime.day := d;
         hour := 0; minute := 0; second := 0; microsecond := 0 |}
  /\ (1 <= y <= 9999)%Z /\ (1 <= m <= 12)%Z /\ (1 <= d <= 31)%Z.
Proof.
  unfold Datetime.mk.
  destruct (negb (c_int y && c_int m && c_int d)); [discriminate|].
  destruct ((y <? 1)%Z || (9999 <? y)%Z) eqn:Ey; [discriminate|].
  destruct ((m <? 1)%Z || (12 <? m)%Z) eqn:Em; [discriminate|].
  destruct ((d <? 1)%Z || (days_in_month y m <? d)%Z) eqn:Ed; [discriminate|].
  intros H; injection H as <-.
  apply orb_false_elim in Ey as [Ey1 Ey2].
  apply orb_false_elim in Em as [Em1 Em2].
  apply orb_false_elim in Ed as [Ed1 Ed2].
  apply Z.ltb_ge in Ey1, Ey2, Em1, Em2, Ed1, Ed2.
  assert (days_in_month y m <= 31)%Z.
  { unfold days_in_month.
    destruct (m =? 2)%Z; [destruct (is_leap y); lia|].
    destruct ((m =? 4)%Z || (m =? 6)%Z || (m =? 9)%Z || (m =? 11)%Z); lia. }
  repeat split; lia.
Qed.

Lemma slice_after (ys tail : str) (a b : nat) :
  List.length ys <= a ->
  slice (ys ++ tail) a b = slice tail (a - List.length ys) (b - List.length ys).
Proof.
  intros Ha. unfold slice.
  replace a with ((a - List.length ys) + List.length ys) at 2 by lia.
  rewrite skipn_add_app. f_equal. lia.
Qed.

Lemma strptime_formatted (y m d : Z) (t : datetime) :
  (1000 <= y)%Z ->
  Datetime.mk y m d = Ok t ->
  strptime_ymd (fmt_date y m d) = Ok t.
Proof.
  intros Hy Hmk. destruct (mk_ok y m d t Hmk) as (_ & Hyr & Hm & Hd).
  destruct (year_digits y) as (c1 & c2 & c3 & c4 & Ey & D1 & D2 & D3 & D4 & Ei);
    [lia|].
  assert (Hmd : month_day_ok m d = true).
  { pose proof (all_from_spec _ _ _ month_days_checked m) as H1.
    assert (H2 : all_from 31 1 (fun d0 => month_day_ok m d0) = true)
      by (apply H1; lia).
    apply (all_from_spec _ _ _ H2 d). lia. }
  unfold fmt_date. rewrite Ey. fold (month_day_text m d).
  unfold month_day_ok in Hmd.
  set (tail := month_day_text m d) in *.
  unfold strptime_ymd, match_, match_at.
  change (rmatch ymd_pattern (final false 0)
            (MState 0 ([c1; c2; c3; c4] ++ tail) []))
    with (if digit c1 then
            if digit c2 then
              if digit c3 then
                if digit c4 then
                  rmatch ymd_rest (final false 0) (MState 4 tail [(1, (0, 4))])
                else None
              else None
            else None
          else None).
  unfold digit. rewrite D1, D2, D3, D4.
  destruct (rmatch ymd_rest (final false 0) (MState 4 tail [(1, (0, 4))]))
    as [st|]; [|discriminate].
  apply andb_true_iff in Hmd as [Hpos Hcaps].
  apply Nat.eqb_eq in Hpos.
  cbn [m_end]. rewrite length_app. cbn [List.length].
  rewrite Hpos, Nat.eqb_refl. cbn [negb].
  unfold group. cbn [m_caps].
  destruct (span_of 1 (caps st)) as [[a1 b1]|]; [|discriminate].
  destruct (span_of 2 (caps st)) as [[a2 b2]|]; [|discriminate].
  destruct (span_of 3 (caps st)) as [[a3 b3]|]; [|discriminate].
  repeat (apply andb_true_iff in Hcaps as [Hcaps ?]).
  repeat match goal with
         | H : Nat.eqb _ _ = true |- _ => apply Nat.eqb_eq in H
         | H : Nat.leb _ _ = true |- _ => apply Nat.leb_le in H
         | H : Z.eqb _ _ = true |- _ => apply Z.eqb_eq in H
         end.
  subst a1 b1.
  rewrite (slice_after [c1; c2; c3; c4] tail a2 b2) by (simpl; lia).
  rewrite (slice_after [c1; c2; c3; c4] tail a3 b3) by (simpl; lia).
  cbn [List.length].
  change (slice ([c1; c2; c3; c4] ++ tail) 0 4) with [c1; c2; c3; c4].
  rewrite Ei.
  repeat match goal with H : int _ = _ |- _ => rewrite H end.
  exact Hmk.
Qed.

(** X13: a date the calendar parser writes (year, month and day formatted
    as in its records) is read back by the date parser of the scheduler as
    the same date, when the year has four digits. *)
Theorem written_date_reads_back :
  forall (y m d : Z) (t : datetime),
    (1000 <= y)%Z ->
    Datetime.mk y m d = Ok t ->
    strptime_ymd (fmt_date y m d) = Ok t.
Proof. exact strptime_formatted. Qed.

Lemma written_date_reads_back_witness :
  strptime_ymd (fmt_date 2026 1 18)
  = Ok {| Datetime.year := 2026; Datetime.month := 1; Datetime.day := 18;
          hour := 0; minute := 0; second := 0; microsecond := 0 |}.
Proof.
  apply (written_date_reads_back 2026 1 18).
  - lia.
  - reflexivity.
Defined.

(** ** The schedule *)

Lemma strptime_midnight (s : str) (t : datetime) :
  strptime_ymd s = Ok t -> hour t = 0%Z.
Proof.
  unfold strptime_ymd.
  destruct (match_ ymd_pattern s) as [m|]; [|discriminate].
  destruct (negb (Nat.eqb (m_end m) (List.length s))); [discriminate|].
  destruct (group s m 1); [|discriminate].
  destruct (group s m 2); [|discriminate].
  destruct (group s m 3); [|discriminate].
  intros H. apply mk_ok in H as [-> _]. reflexivity.
Qed.

Lemma schedule_of_entry (day_data : dict) (s : Schedule) :
  schedule_of day_data (dict_get day_data (U "date")) = Ok s ->
  exists text t y m d,
    dict_get day_data (U "date") = JStr text /\
    s_date s = JStr text /\
    strptime_ymd text = Ok t /\
    day_before (Datetime.year t) (Datetime.month t) (Datetime.day t)
    = Ok (y, m, d) /\
    s_cron s = U "5 16 " ++ fmt_d d ++ [SPACE] ++ fmt_d m ++ U " *" /\
    s_activities_count s = dict_get_or day_data (U "count") (JNum 0).
Proof.
  unfold schedule_of.
  destruct (dict_get day_data (U "date")) as [| | |text| |];
    try discriminate.
  cbn [strptime_json].
  destruct (strptime_ymd text) as [t|e] eqn:Et; [|discriminate].
  cbn [bind]. unfold minus_8_hours.
  rewrite (strptime_midnight text t Et). cbn [Z.leb Z.compare].
  destruct (day_before (Datetime.year t) (Datetime.month t) (Datetime.day t))
    as [[[y m] d]|e] eqn:Ed; [|discriminate].
  cbn [bind]. intros H; injection H as <-.
  exists text, t, y, m, d. repeat split; auto.
Qed.

Lemma cron_loop_entries (all : list dict) :
  forall calendar_data schedules out,
    incl calendar_data all ->
    Forall (schedule_entry_of all) schedules ->
    cron_loop calendar_data schedules = Ok out ->
    Forall (schedule_entry_of all) out.
Proof.
  induction calendar_data as [|day_data l IH]; intros acc out Hincl Hacc H.
  - injection H as <-. exact Hacc.
  - cbn [cron_loop] in H.
    assert (Hl : incl l all) by (intros x Hx; apply Hincl; right; exact Hx).
    destruct (negb (truthy_json (dict_get day_data (U "date")))).
    { apply (IH acc out Hl Hacc H). }
    destruct (schedule_of day_data (dict_get day_data (U "date")))
      as [s|e] eqn:Es.
    + apply (IH (acc ++ [s]) out Hl); [|exact H].
      apply Forall_app. split; [exact Hacc|]. constructor; [|constructor].
      destruct (schedule_of_entry day_data s Es)
        as (text & t & y & m & d & H1 & H2 & H3 & H4 & H5 & H6).
      exists day_data, text, t, y, m, d.
      repeat split; auto. apply Hincl. left. reflexivity.
    + destruct e; try discriminate. apply (IH acc out Hl Hacc H).
Qed.

(** X14: every entry [generate_cron_schedule] returns belongs to a record
    whose date is a string that reads as a date; the entry keeps that
    string and the record's count, and its line is [5 16 D M *] for the day
    D of the month M just before that date. *)
Theorem schedule_entries_name_day_before :
  forall calendar_data schedules,
    generate_cron_schedule calendar_data = Ok schedules ->
    Forall (schedule_entry_of calendar_data) schedules.
Proof.
  intros data out H.
  apply (cron_loop_entries data data [] out); auto.
  - apply incl_refl.
Qed.

Lemma schedule_entries_name_day_before_witness :
  Forall (schedule_entry_of [day_dict lunch_18]) [entry_18].
Proof.
  apply (schedule_entries_name_day_before [day_dict lunch_18] [entry_18]).
  vm_compute. reflexivity.
Defined.

(** *** The schedule of the parsed calendar *)

Lemma day_dict_date (d : DayActivities) :
  dict_get (day_dict d) (U "date") = JStr (date d).
Proof. reflexivity. Qed.

Lemma day_dict_count (d : DayActivities) :
  dict_get_or (day_dict d) (U "count") (JNum 0) = JNum (count d).
Proof. reflexivity. Qed.

Lemma fmt_date_truthy (y m d : Z) : truthy (fmt_date y m d) = true.
Proof. unfold fmt_date. destruct (fmt_d y); reflexivity. Qed.

Lemma schedule_of_dated (d : DayActivities) :
  dated d ->
  exists s,
    schedule_of (day_dict d) (JStr (date d)) = Ok s /\
    s_date s = JStr (date d) /\
    s_activities_count s = JNum (count d).
Proof.
  intros (y & mo & dd & t & Hd & Hy & Hmk).
  unfold schedule_of. cbn [strptime_json]. rewrite Hd.
  rewrite (strptime_formatted y mo dd t Hy Hmk). cbn [bind].
  destruct (mk_ok y mo dd t Hmk) as (-> & _ & _ & _).
  unfold minus_8_hours, day_before.
  cbn [hour Datetime.year Datetime.month Datetime.day Z.leb Z.compare].
  rewrite day_dict_count.
  destruct (1 <? dd)%Z; [eexists; cbn [bind]; repeat split; reflexivity|].
  destruct (1 <? mo)%Z; [eexists; cbn [bind]; repeat split; reflexivity|].
  destruct (Z.ltb_spec 1 y); [|lia].
  eexists; cbn [bind]; repeat split; reflexivity.
Qed.

Lemma cron_loop_dated :
  forall (l : list DayActivities) (acc : list Schedule),
    Forall dated l ->
    exists new,
      cron_loop (map day_dict l) acc = Ok (acc ++ new) /\
      map s_date new = map (fun d => JStr (date d)) l /\
      map s_activities_count new = map (fun d => JNum (count d)) l.
Proof.
  induction l as [|d l IH]; intros acc H.
  - exists []. rewrite app_nil_r. repeat split; reflexivity.
  - inversion H as [|d' l' Hd Hl]; subst.
    cbn [map cron_loop]. rewrite day_dict_date. cbn [truthy_json].
    destruct Hd as (y & mo & dd & t & Hdate & Hy & Hmk).
    assert (Hdd : dated d) by (exists y, mo, dd, t; auto).
    assert (Ht : truthy (date d) = true)
      by (rewrite Hdate; apply fmt_date_truthy).
    rewrite Ht. cbn [negb].
    destruct (schedule_of_dated d Hdd) as (s & Es & E1 & E2).
    rewrite Es.
    destruct (IH (acc ++ [s]) Hl) as (new & En & N1 & N2).
    exists (s :: new). rewrite En, <- app_assoc. cbn [app map].
    rewrite E1, E2, N1, N2. repeat split; reflexivity.
Qed.

(** X15: with a reference date of a four-digit year,
    [generate_cron_schedule] does not fail on what
    [parse_calendar_activities] returns, and it schedules every record, in
    order, with the record's date and count. *)
Theorem parsed_calendar_fully_scheduled :
  forall now text server_date current_date acts,
    reference_date now server_date = Ok current_date ->
    (1000 <= Datetime.year current_date)%Z ->
    parse_calendar_activities now text server_date = Ok acts ->
    exists schedules,
      generate_cron_schedule (map day_dict acts) = Ok schedules /\
      map s_date schedules = map (fun d => JStr (date d)) acts /\
      map s_activities_count schedules = map (fun d => JNum (count d)) acts.
Proof.
  intros now text sd cur acts Href Hy Hrun.
  assert (Hall : Forall dated acts).
  { destruct (parse_calendar_records now text sd acts Hrun)
      as [->|(cur' & Href' & Hall)]; [constructor|].
    rewrite Href in Href'. injection Href' as <-.
    eapply Forall_impl; [|exact Hall].
    intros d (i & m & y & mo & dd & ad & _ & _ & _ & Hyy & Hmk & _ & Hd & _).
    exists y, mo, dd, ad. subst y. auto. }
  destruct (cron_loop_dated acts [] Hall) as (new & E & N1 & N2).
  exists new. auto.
Qed.

Lemma parsed_calendar_fully_scheduled_witness :
  exists schedules,
    generate_cron_schedule (map day_dict [lunch_18]) = Ok schedules /\
    map s_date schedules = map (fun d => JStr (date d)) [lunch_18] /\
    map s_activities_count schedules
    = map (fun d => JNum (count d)) [lunch_18].
Proof.
  apply (parsed_calendar_fully_scheduled morning_17 two_days None
           morning_17 [lunch_18]).
  - reflexivity.
  - vm_compute. discriminate.
  - vm_compute. reflexivity.
Defined.

(** *** Today's record of the parsed calendar *)

Lemma strftime_is_fmt_date (t : datetime) :
  (1000 <= Datetime.year t <= 9999)%Z ->
  strftime_ymd t
  = fmt_date (Datetime.year t) (Datetime.month t) (Datetime.day t).
Proof.
  intros Hy. unfold strftime_ymd, fmt_date.
  destruct (year_digits (Datetime.year t) Hy)
    as (c1 & c2 & c3 & c4 & -> & _).
  reflexivity.
Qed.

(** X16: the date format of the calendar records and the one of the lookup
    agree for four-digit years: when the parsed calendar holds a record for
    the day of the local clock, [get_today_activities] returns a record of
    that date. *)
Theorem today_record_of_parsed_calendar_found :
  forall now (acts : list DayActivities) (d : DayActivities),
    (1000 <= Datetime.year now <= 9999)%Z ->
    In d acts ->
    date d = fmt_date (Datetime.year now) (Datetime.month now)
                      (Datetime.day now) ->
    exists d',
      get_today_activities now (map day_dict acts) = Some (day_dict d') /\
      In d' acts /\ date d' = date d.
Proof.
  intros now acts d Hy Hin Hdate. unfold get_today_activities.
  rewrite (strftime_is_fmt_date now Hy), <- Hdate.
  pose proof (today_loop_first (date d) (map day_dict acts)) as H.
  destruct (today_loop (date d) (map day_dict acts)) as [x|].
  - destruct H as (before & after & E & Hx & _).
    assert (Hxin : In x (map day_dict acts))
      by (rewrite E; apply in_or_app; right; left; reflexivity).
    apply in_map_iff in Hxin as (d' & <- & Hd').
    exists d'. repeat split; auto.
    rewrite day_dict_date in Hx. injection Hx as ->. reflexivity.
  - rewrite Forall_forall in H.
    destruct (H (day_dict d) (in_map day_dict acts d Hin)).
    apply day_dict_date.
Qed.

Lemma today_record_of_parsed_calendar_found_witness :
  exists d',
    get_today_activities morning_18 (map day_dict [lunch_18])
    = Some (day_dict d') /\
    In d' [lunch_18] /\ date d' = date lunch_18.
Proof.
  apply (today_record_of_parsed_calendar_found morning_18 [lunch_18] lunch_18).
  - vm_compute. split; discriminate.
  - left. reflexivity.
  - vm_compute. reflexivity.
Defined.

(** ** Groups that always take part *)





Lemma final_some (ma : bool) (i : nat) (st res : mstate) :
  final ma i st = Some res -> res = st.
Proof.
  unfold final. destruct (ma && Nat.eqb (pos st) i); [discriminate|].
  intros H; injection H as <-. reflexivity.
Qed.




(** ** When the calendar parser returns *)



Section CalendarReturns.

Variables (text : str) (current_date : datetime) (matches : list mobj).

Hypothesis year_valid : (1 <= Datetime.year current_date <= 9999)%Z.
Hypothesis month_valid : (1 <= Datetime.month current_date <= 12)%Z.


End CalendarReturns.



(** ** What [strptime] raises *)

Lemma digit_in_range :
  forall zs c d, digit_in zs c = Some d -> (0 <= d <= 9)%Z.
Proof.
  induction zs as [|z zs IH]; intros c d H; simpl in H; [discriminate|].
  destruct ((z <=? c)%N && (c <? z + 10)%N) eqn:E; [|apply (IH _ _ H)].
  injection H as <-. apply andb_true_iff in E as [E1 E2].
  apply N.leb_le in E1. apply N.ltb_lt in E2. lia.
Qed.

Lemma int_fold_lt (w : str) :
  forall acc : Z,
    (0 <= acc)%Z ->
    (0 <= fold_left
            (fun a c => (a * 10 + match digit_value c with
                                  | Some d => d | None => 0 end)%Z) w acc
     < (acc + 1) * 10 ^ Z.of_nat (List.length w))%Z.
Proof.
  induction w as [|c w IH]; intros acc Hacc.
  - simpl. lia.
  - cbn [fold_left List.length]. rewrite Nat2Z.inj_succ, Z.pow_succ_r by lia.
    assert (Hd : (0 <= match digit_value c with Some d => d | None => 0 end <= 9)%Z).
    { destruct (digit_value c) as [d|] eqn:E; [|lia].
      apply (digit_in_range _ _ _ E). }
    specialize (IH (acc * 10 + match digit_value c with
                               | Some d => d | None => 0 end)%Z ltac:(lia)).
    assert (Hp : (0 < 10 ^ Z.of_nat (List.length w))%Z)
      by (apply Z.pow_pos_nonneg; lia).
    nia.
Qed.

Lemma int_lt (w : str) (n : nat) :
  List.length w <= n -> (0 <= int w < 10 ^ Z.of_nat n)%Z.
Proof.
  intros H. pose proof (int_fold_lt w 0%Z ltac:(lia)) as Hb.
  unfold int.
  assert (Hm : (10 ^ Z.of_nat (List.length w) <= 10 ^ Z.of_nat n)%Z)
    by (apply Z.pow_le_mono_r; lia).
  lia.
Qed.

Lemma slice_length (s : str) (a b : nat) : List.length (slice s a b) <= b - a.
Proof. unfold slice. apply firstn_le_length. Qed.

Lemma strip_length (s : str) : List.length (strip s) <= List.length s.
Proof.
  destruct (strip_middle s) as (w1 & w2 & E).
  rewrite E at 2. rewrite !length_app. lia.
Qed.

Lemma rmatch_cat (a b : regex) (k : cont) (st : mstate) :
  rmatch (Cat a b) k st = rmatch a (rmatch b k) st.
Proof. reflexivity. Qed.

Lemma rmatch_chr_inv (p : char -> bool) (k : cont) (st res : mstate) :
  rmatch (Chr p) k st = Some res ->
  exists c s', rest st = c :: s' /\ p c = true /\
               k (MState (S (pos st)) s' (caps st)) = Some res.
Proof.
  cbn [rmatch]. destruct (rest st) as [|c s']; [discriminate|].
  destruct (p c) eqn:E; [|discriminate].
  intros H. exists c, s'. repeat split; assumption.
Qed.

(** The fields of a string the pattern matches: four characters, at most
    two and at most two. *)
Lemma strptime_fields (s : str) (m : mobj) :
  match_ ymd_pattern s = Some m ->
  exists y mo d,
    group s m 1 = Some y /\ group s m 2 = Some mo /\ group s m 3 = Some d /\
    List.length y <= 4 /\ List.length mo <= 2 /\ List.length d <= 2.
Proof.
  unfold match_, match_at.
  destruct (rmatch ymd_pattern (final false 0) (MState 0 s [])) as [st|] eqn:E;
    [|discriminate].
  intros H; injection H as <-.
  unfold ymd_pattern in E. rewrite rmatch_cat in E.
  apply rmatch_group_takes in E; [|reflexivity].
  destruct E as (w1 & t1 & _ & L1 & E).
  rewrite rmatch_cat in E.
  apply rmatch_chr_inv in E as (c1 & t1' & _ & _ & E).
  rewrite rmatch_cat in E.
  apply rmatch_group_takes in E; [|reflexivity].
  destruct E as (w2 & t2 & _ & L2 & E).
  rewrite rmatch_cat in E.
  apply rmatch_chr_inv in E as (c2 & t2' & _ & _ & E).
  apply rmatch_group_takes in E; [|reflexivity].
  destruct E as (w3 & t3 & _ & L3 & E).
  apply final_some in E. subst st.
  unfold group. cbn [m_caps caps pos span_of Nat.eqb].
  eexists _, _, _. split; [reflexivity|]. split; [reflexivity|].
  split; [reflexivity|]. repeat split.
  - etransitivity; [apply slice_length|].
    destruct L1 as (x1 & r1 & -> & (a & -> & _) & x2 & r2 & -> & (b & -> & _)
                    & x3 & r3 & -> & (c & -> & _) & (d & -> & _)).
    simpl. lia.
  - etransitivity; [apply slice_length|].
    assert (List.length w2 <= 2).
    { destruct L2 as [L|[L|L]].
      - destruct L as (x & r & -> & (a & -> & _) & (b & -> & _)). simpl. lia.
      - destruct L as (x & r & -> & (a & -> & _) & (b & -> & _)). simpl. lia.
      - destruct L as (a & -> & _). simpl. lia. }
    lia.
  - etransitivity; [apply slice_length|].
    assert (List.length w3 <= 2).
    { destruct L3 as [L|[L|[L|[L|L]]]].
      - destruct L as (x & r & -> & (a & -> & _) & (b & -> & _)). simpl. lia.
      - destruct L as (x & r & -> & (a & -> & _) & (b & -> & _)). simpl. lia.
      - destruct L as (x & r & -> & (a & -> & _) & (b & -> & _)). simpl. lia.
      - destruct L as (a & -> & _). simpl. lia.
      - destruct L as (x & r & -> & (a & -> & _) & (b & -> & _)). simpl. lia. }
    lia.
Qed.

Lemma mk_small (y m d : Z) (e : exn) :
  (0 <= y < 10 ^ 4)%Z -> (0 <= m < 10 ^ 2)%Z -> (0 <= d < 10 ^ 2)%Z ->
  Datetime.mk y m d = Raise e -> e = ValueError.
Proof.
  intros Hy Hm Hd. unfold Datetime.mk, c_int.
  change (2 ^ 31)%Z with 2147483648%Z.
  change (10 ^ 4)%Z with 10000%Z in Hy.
  change (10 ^ 2)%Z with 100%Z in Hm, Hd.
  replace (negb _) with false.
  2:{ symmetry. apply negb_false_iff.
      repeat (apply andb_true_iff; split); apply Z.leb_le; lia. }
  destruct ((y <? 1)%Z || (9999 <? y)%Z); [congruence|].
  destruct ((m <? 1)%Z || (12 <? m)%Z); [congruence|].
  destruct ((d <? 1)%Z || (days_in_month y m <? d)%Z); [congruence|].
  discriminate.
Qed.

Lemma strptime_only_value_error (s : str) (e : exn) :
  strptime_ymd s = Raise e -> e = ValueError.
Proof.
  unfold strptime_ymd.
  destruct (match_ ymd_pattern s) as [m|] eqn:E; [|congruence].
  destruct (negb (Nat.eqb (m_end m) (List.length s))); [congruence|].
  destruct (strptime_fields s m E) as (y & mo & d & -> & -> & -> & Ly & Lm & Ld).
  apply mk_small.
  - apply (int_lt y 4 Ly).
  - apply (int_lt mo 2 Lm).
  - apply (int_lt (strip d) 2). pose proof (strip_length d). lia.
Qed.

(** ** When the schedule is produced *)

Lemma strptime_valid (s : str) (t : datetime) :
  strptime_ymd s = Ok t ->
  (1 <= Datetime.year t)%Z /\ (1 <= Datetime.month t)%Z /\
  (1 <= Datetime.day t)%Z /\ hour t = 0%Z /\ minute t = 0%Z /\
  second t = 0%Z /\ microsecond t = 0%Z.
Proof.
  unfold strptime_ymd.
  destruct (match_ ymd_pattern s) as [m|]; [|discriminate].
  destruct (negb (Nat.eqb (m_end m) (List.length s))); [discriminate|].
  destruct (group s m 1) as [y|]; [|discriminate].
  destruct (group s m 2) as [mo|]; [|discriminate].
  destruct (group s m 3) as [d|]; [|discriminate].
  unfold Datetime.mk.
  destruct (negb _); [discriminate|].
  destruct ((int y <? 1)%Z || (9999 <? int y)%Z) eqn:Ey; [discriminate|].
  destruct ((int mo <? 1)%Z || (12 <? int mo)%Z) eqn:Em; [discriminate|].
  destruct ((int (strip d) <? 1)%Z || _) eqn:Ed; [discriminate|].
  intros H; injection H as <-. cbn.
  apply orb_false_elim in Ey as [Ey _], Em as [Em _], Ed as [Ed _].
  apply Z.ltb_ge in Ey, Em, Ed. repeat split; auto.
Qed.

(** Eight hours before a date read by [strptime]: there is one unless the
    date is the first day. *)
Lemma minus_8_hours_first_day (s : str) (t : datetime) :
  strptime_ymd s = Ok t ->
  (exists u, minus_8_hours t = Ok u) \/
  (t = first_day /\ minus_8_hours t = Raise OverflowError).
Proof.
  intros H. destruct (strptime_valid s t H) as (Hy & Hm & Hd & Hh & Hmi & Hs & Hu).
  unfold minus_8_hours, day_before. rewrite Hh. cbn [Z.leb Z.compare].
  destruct (1 <? Datetime.day t)%Z eqn:Ed; [left; eexists; reflexivity|].
  destruct (1 <? Datetime.month t)%Z eqn:Em; [left; eexists; reflexivity|].
  destruct (1 <? Datetime.year t)%Z eqn:Ey; [left; eexists; reflexivity|].
  right. split; [|reflexivity].
  apply Z.ltb_ge in Ed, Em, Ey.
  destruct t as [y m d h mi se us]. cbn in *. unfold first_day.
  f_equal; lia.
Qed.

Lemma schedule_of_cases (day_data : dict) (v : json) :
  match schedule_of day_data v with
  | Ok _ => exists s, v = JStr s /\ strptime_ymd s <> Ok first_day
  | Raise ValueError => exists s, v = JStr s /\ strptime_ymd s = Raise ValueError
  | Raise OverflowError => exists s, v = JStr s /\ strptime_ymd s = Ok first_day
  | Raise TypeError => forall s, v <> JStr s
  end.
Proof.
  unfold schedule_of, strptime_json.
  destruct v as [ | | | s | | ]; cbn [bind]; try (intros s0; discriminate).
  destruct (strptime_ymd s) as [t|e] eqn:E; cbn [bind].
  - destruct (minus_8_hours_first_day s t E) as [[u Hu]|[Ht Hu]];
      rewrite Hu; cbn [bind].
    + exists s. split; [reflexivity|]. intros H. rewrite E in H.
      injection H as ->. vm_compute in Hu. discriminate.
    + exists s. subst t. split; [reflexivity | exact E].
  - pose proof (strptime_only_value_error s e E) as ->.
    exists s. split; [reflexivity | exact E].
Qed.

Lemma cron_loop_returns_iff :
  forall calendar_data acc,
    (exists out, cron_loop calendar_data acc = Ok out) <->
    Forall schedulable calendar_data.
Proof.
  induction calendar_data as [|day_data rest IH]; intros acc.
  - split; [constructor | exists acc; reflexivity].
  - cbn [cron_loop].
    destruct (negb (truthy_json (dict_get day_data (U "date")))) eqn:Et.
    + rewrite IH. split.
      * intros H. constructor; [|exact H].
        unfold schedulable. cbv zeta. intros Ht. rewrite Ht in Et. discriminate.
      * intros H. inversion H; assumption.
    + pose proof (schedule_of_cases day_data (dict_get day_data (U "date"))) as C.
      destruct (schedule_of day_data (dict_get day_data (U "date")))
        as [sch|[ | | ]].
      * rewrite IH. split.
        -- intros H. constructor; [|exact H]. intros _. exact C.
        -- intros H. inversion H; assumption.
      * rewrite IH. split.
        -- intros H. constructor; [|exact H]. intros _.
           destruct C as (s & Hs & E). exists s. split; [exact Hs|].
           rewrite E. discriminate.
        -- intros H. inversion H; assumption.
      * split; [intros [out H]; discriminate|].
        intros H. inversion H as [|? ? Hd _]. subst.
        apply negb_false_iff in Et.
        destruct (Hd Et) as (s & Hs & Hne).
        destruct C as (s' & Hs' & E). rewrite Hs in Hs'. injection Hs' as <-.
        contradiction.
      * split; [intros [out H]; discriminate|].
        intros H. inversion H as [|? ? Hd _]. subst.
        apply negb_false_iff in Et.
        destruct (Hd Et) as (s & Hs & _). exfalso. apply (C s Hs).
Qed.

(** X18: [generate_cron_schedule] returns normally exactly when every
    record's date is either an empty value (missing, empty string, zero,
    ...) or a string that does not read as 0001-01-01: a date that is not a
    string raises [TypeError], the first day raises [OverflowError], and
    neither is caught; a string that is no date is passed over. *)
Theorem schedule_returns_iff_dates_schedulable :
  forall calendar_data,
    (exists schedules, generate_cron_schedule calendar_data = Ok schedules) <->
    Forall schedulable calendar_data.
Proof.
  intros calendar_data. unfold generate_cron_schedule.
  apply cron_loop_returns_iff.
Qed.
